(** * fin-modeler: the financial projection engine

    A shallow embedding of [lib/financeEngine] (calculations, the
    projection driver [runScenario], the summary, the sanity checker and
    the benchmark lookup) together with the properties the specification
    states about it.

    Numbers.  A TypeScript [number] is modelled by [number] below: an exact
    rational, or one of the three non-finite values that JavaScript
    arithmetic produces ([Infinity], [-Infinity], [NaN]).  Rounding to
    binary64 and the sign of zero are not modelled.  Fields that the
    validation schemas (lib/validation/schemas.ts) declare [int()] and that
    the engine uses as indices or counters ([months], [monthOffset],
    [hiringDelayMonths], [count], ...) are integers [Z]. *)

From stdpp Require Import base numbers list strings pretty.
From Stdlib Require Import QArith Qcanon.

Local Open Scope Z_scope.

(** ** JavaScript numbers *)

Inductive number : Type :=
  | Fin (q : Qc)
  | PosInf
  | NegInf
  | NaN.

#[global] Instance number_eq_dec : EqDecision number.
Proof. solve_decision. Defined.

(** Literals: [int n] is the integer [n], [dec n d] the decimal [n/d]. *)
Definition int (n : Z) : number := Fin (Qc_of_Z n).
Definition dec (n : Z) (d : positive) : number := Fin (Q2Qc (n # d)).

Definition inf_of_sign (c : comparison) : number :=
  match c with Gt => PosInf | Lt => NegInf | Eq => NaN end.

Definition num_opp (x : number) : number :=
  match x with
  | Fin a => Fin (- a)%Qc
  | PosInf => NegInf
  | NegInf => PosInf
  | NaN => NaN
  end.

Definition num_add (x y : number) : number :=
  match x, y with
  | NaN, _ | _, NaN => NaN
  | Fin a, Fin b => Fin (a + b)%Qc
  | PosInf, NegInf | NegInf, PosInf => NaN
  | PosInf, _ | _, PosInf => PosInf
  | NegInf, _ | _, NegInf => NegInf
  end.

Definition num_sub (x y : number) : number := num_add x (num_opp y).

Definition num_mul (x y : number) : number :=
  match x, y with
  | NaN, _ | _, NaN => NaN
  | Fin a, Fin b => Fin (a * b)%Qc
  | Fin a, PosInf | PosInf, Fin a => inf_of_sign (a ?= 0)%Qc
  | Fin a, NegInf | NegInf, Fin a => inf_of_sign (CompOpp (a ?= 0)%Qc)
  | PosInf, PosInf | NegInf, NegInf => PosInf
  | PosInf, NegInf | NegInf, PosInf => NegInf
  end.

(** [x / y]: division by zero gives an infinity of the sign of [x], and
    [0 / 0] is [NaN]. *)
Definition num_div (x y : number) : number :=
  match x, y with
  | NaN, _ | _, NaN => NaN
  | Fin a, Fin b =>
      if decide (b = 0%Qc) then inf_of_sign (a ?= 0)%Qc else Fin (a / b)%Qc
  | Fin _, (PosInf | NegInf) => Fin 0%Qc
  | PosInf, Fin b => if bool_decide (b < 0)%Qc then NegInf else PosInf
  | NegInf, Fin b => if bool_decide (b < 0)%Qc then PosInf else NegInf
  | (PosInf | NegInf), (PosInf | NegInf) => NaN
  end.

(** [x < y]; every comparison with [NaN] is false. *)
Definition num_lt (x y : number) : bool :=
  match x, y with
  | NaN, _ | _, NaN => false
  | Fin a, Fin b => bool_decide (a < b)%Qc
  | _, NegInf => false
  | NegInf, _ => true
  | PosInf, _ => false
  | Fin _, PosInf => true
  end.

(** [x <= y] *)
Definition num_le (x y : number) : bool :=
  match x, y with
  | NaN, _ | _, NaN => false
  | Fin a, Fin b => bool_decide (a ≤ b)%Qc
  | NegInf, _ => true
  | _, PosInf => true
  | _, NegInf => false
  | PosInf, Fin _ => false
  end.

(** [x > y] and [x === y] *)
Definition num_gt (x y : number) : bool := num_lt y x.
Definition num_eq (x y : number) : bool :=
  match x, y with
  | NaN, _ | _, NaN => false
  | _, _ => bool_decide (x = y)
  end.

(** [Math.max(x, y)] and [Math.min(x, y)]: [NaN] if either argument is. *)
Definition Math_max (x y : number) : number :=
  match x, y with
  | NaN, _ | _, NaN => NaN
  | _, _ => if num_lt x y then y else x
  end.

Definition Math_min (x y : number) : number :=
  match x, y with
  | NaN, _ | _, NaN => NaN
  | _, _ => if num_lt y x then y else x
  end.

(** Truthiness of a number: [0] and [NaN] are falsy. *)
Definition truthy (x : number) : bool :=
  match x with
  | NaN => false
  | Fin a => negb (bool_decide (a = 0%Qc))
  | _ => true
  end.

(** [x || y] on numbers. *)
Definition num_or (x y : number) : number := if truthy x then x else y.

(** [ToNumber] of a property read: a missing property reads as
    [undefined], which converts to [NaN]. *)
Definition ToNumber (v : option number) : number := default NaN v.

(** [x ?? d] *)
Definition nullish {A} (x : option A) (d : A) : A := default d x.

Declare Scope num_scope.
Delimit Scope num_scope with num.
Bind Scope num_scope with number.
Infix "+" := num_add : num_scope.
Infix "-" := num_sub : num_scope.
Infix "*" := num_mul : num_scope.
Infix "/" := num_div : num_scope.

(** The outcome of a call that may throw. *)
Inductive outcome (A : Type) : Type :=
  | Returns (a : A)
  | Throws (msg : string).
Arguments Returns {A} a.
Arguments Throws {A} msg.

(** ** Domain types (lib/types.ts) *)

Module CompanyInput.
Record t : Type := mk {
  name : string;
  stage : string;
  sector : string;
  country : string;
  currency : string;
  startingCash : number;
  startingMRR : number;
  currentHeadcount : Z
}.
End CompanyInput.

(** A [YYYY-MM] label, kept as the two numbers that
    [split("-").map(Number)] reads off it. *)
Record YearMonth : Type := { ym_year : Z; ym_month : Z }.

Module AssumptionInput.
Record t : Type := mk {
  name : string;
  startMonth : YearMonth;
  months : Z;
  pricingModel : string;
  arpu : number;
  expectedNewCustomersPerMonth : number;
  expansionRevenueRate : number;
  churnRate : number;
  cac : number;
  paybackPeriodMonths : Z;
  grossMarginPercent : number;
  fixedCostsPerMonth : number;
  variableCostPercentOfRevenue : number
}.

(** The number-valued properties the interface declares, by key.  A read
    of any other key on an [AssumptionInput] object is [undefined]. *)
Definition number_props (a : t) : list (string * number) :=
  [ ("months", int (months a));
    ("arpu", arpu a);
    ("expectedNewCustomersPerMonth", expectedNewCustomersPerMonth a);
    ("expansionRevenueRate", expansionRevenueRate a);
    ("churnRate", churnRate a);
    ("cac", cac a);
    ("paybackPeriodMonths", int (paybackPeriodMonths a));
    ("grossMarginPercent", grossMarginPercent a);
    ("fixedCostsPerMonth", fixedCostsPerMonth a);
    ("variableCostPercentOfRevenue", variableCostPercentOfRevenue a) ]%string.
End AssumptionInput.

(** [obj.key] on a list of properties: the first binding of [key], if any. *)
Fixpoint read_prop {A} (props : list (string * A)) (key : string) : option A :=
  match props with
  | [] => None
  | (k, v) :: rest => if String.eqb k key then Some v else read_prop rest key
  end.

Module HiringPlanItemInput.
Record t : Type := mk {
  monthOffset : Z;
  roleName : string;
  count : Z;
  monthlySalaryPerHead : number;
  department : string
}.
End HiringPlanItemInput.

Module MonthlyOverride.
Record t : Type := mk {
  monthOffset : Z;
  newCustomers : option number;
  fixedCosts : option number
}.
End MonthlyOverride.

Module ScenarioOverrides.
Record t : Type := mk {
  customerGrowthMultiplier : option number;
  arpuMultiplier : option number;
  churnRateAdjustment : option number;
  expansionRevenueRateAdjustment : option number;
  grossMarginAdjustment : option number;
  fixedCostsMultiplier : option number;
  variableCostMultiplier : option number;
  hiringDelayMonths : option Z;
  salaryMultiplier : option number;
  customMonthlyOverrides : option (list MonthlyOverride.t)
}.

(** The object [{}]: every optional field absent. *)
Definition empty : t :=
  mk None None None None None None None None None None.
End ScenarioOverrides.

Module MonthlyProjection.
Record t : Type := mk {
  monthIndex : Z;
  month : string;
  startingCash : number;
  endingCash : number;
  netBurn : number;
  runwayMonths : option number;
  newCustomers : number;
  churnedCustomers : number;
  activeCustomers : number;
  mrr : number;
  revenue : number;
  cogs : number;
  grossProfit : number;
  salaryCosts : number;
  fixedCosts : number;
  variableCosts : number;
  totalOpex : number;
  headcount : Z
}.
End MonthlyProjection.

Module ProjectionSummary.
Record t : Type := mk {
  scenarioName : string;
  startingMRR : number;
  endingMRR : number;
  mrrGrowthPercent : number;
  peakBurn : number;
  peakBurnMonth : string;
  avgMonthlyBurn : number;
  startingCash : number;
  endingCash : number;
  totalCashBurned : number;
  zeroCashMonth : option string;
  minRunway : option number;
  totalRevenue : number;
  startingHeadcount : Z;
  endingHeadcount : Z;
  ltv : option number;
  cacPaybackMonths : Z
}.
End ProjectionSummary.

Record FinancialModelInput : Type := {
  company : CompanyInput.t;
  assumptions : AssumptionInput.t;
  hiringPlan : list HiringPlanItemInput.t;
  scenarioOverrides : option ScenarioOverrides.t
}.

Record FinancialModelOutput : Type := {
  projections : list MonthlyProjection.t;
  summary : ProjectionSummary.t
}.

(** ** Time utilities (lib/financeEngine/utils.ts) *)

(** A local [Date] on the first day of a month: only the year and the
    zero-based month are observed. *)
Record Date : Type := { getFullYear : Z; getMonth : Z }.

(** [new Date(year, monthIndex, 1)]: a year from 0 to 99 means
    [1900 + year]; a month index outside 0..11 carries into the year. *)
Definition newDate (year monthIndex : Z) : Date :=
  let y := if bool_decide (0 ≤ year ≤ 99) then 1900 + year else year in
  {| getFullYear := y + monthIndex `div` 12; getMonth := monthIndex `mod` 12 |}.

(** [date.setMonth(m)] *)
Definition setMonth (date : Date) (m : Z) : Date :=
  {| getFullYear := getFullYear date + m `div` 12; getMonth := m `mod` 12 |}.

(** [s.padStart(2, "0")] *)
Definition padStart2 (s : string) : string :=
  match String.length s with
  | O => "00"
  | S O => "0" +:+ s
  | _ => s
  end.

Definition formatMonth (date : Date) : string :=
  let year := getFullYear date in
  let month := padStart2 (pretty (getMonth date + 1)) in
  pretty year +:+ "-" +:+ month.

Definition addMonthsDate (startMonth : YearMonth) (monthsToAdd : Z) : Date :=
  let date := newDate (ym_year startMonth) (ym_month startMonth - 1) in
  setMonth date (getMonth date + monthsToAdd).

Definition addMonths (startMonth : YearMonth) (monthsToAdd : Z) : string :=
  formatMonth (addMonthsDate startMonth monthsToAdd).

(** ** Calculation primitives (lib/financeEngine/calculations.ts) *)

Module ActiveCustomers.
Record t : Type := mk {
  newCustomers : number;
  churnedCustomers : number;
  activeCustomers : number
}.
End ActiveCustomers.

Module Revenue.
Record t : Type := mk { mrr : number; revenue : number }.
End Revenue.

Module Costs.
Record t : Type := mk {
  cogs : number;
  grossProfit : number;
  salaryCosts : number;
  fixedCosts : number;
  variableCosts : number;
  totalOpex : number
}.
End Costs.

(** [overrides?.customMonthlyOverrides?.find((o) => o.monthOffset === monthIndex)] *)
Definition findCustomOverride (overrides : option ScenarioOverrides.t)
    (monthIndex : Z) : option MonthlyOverride.t :=
  (overrides ≫= ScenarioOverrides.customMonthlyOverrides)
    ≫= find (λ o, bool_decide (MonthlyOverride.monthOffset o = monthIndex)).

Definition calculateActiveCustomers (previousActiveCustomers : number)
    (assumptions : AssumptionInput.t) (monthIndex : Z)
    (overrides : option ScenarioOverrides.t) : ActiveCustomers.t :=
  let customOverride := findCustomOverride overrides monthIndex in
  let newCustomers := AssumptionInput.expectedNewCustomersPerMonth assumptions in
  let newCustomers :=
    match overrides ≫= ScenarioOverrides.customerGrowthMultiplier with
    | Some m => if truthy m then (newCustomers * m)%num else newCustomers
    | None => newCustomers
    end in
  let newCustomers :=
    match customOverride ≫= MonthlyOverride.newCustomers with
    | Some v => v
    | None => newCustomers
    end in
  let churnedCustomers :=
    (previousActiveCustomers * AssumptionInput.churnRate assumptions)%num in
  let activeCustomers :=
    Math_max (int 0)
      (previousActiveCustomers + newCustomers - churnedCustomers)%num in
  ActiveCustomers.mk newCustomers churnedCustomers activeCustomers.

Definition calculateRevenue (activeCustomers : number)
    (assumptions : AssumptionInput.t) : Revenue.t :=
  let baseMRR := (activeCustomers * AssumptionInput.arpu assumptions)%num in
  let expansionRevenue :=
    (baseMRR * AssumptionInput.expansionRevenueRate assumptions)%num in
  let mrr := (baseMRR + expansionRevenue)%num in
  let revenue := mrr in
  Revenue.mk mrr revenue.

(** The hiring-plan items active in [monthIndex] under a hiring delay. *)
Definition activeHires (hiringPlan : list HiringPlanItemInput.t)
    (monthIndex delayMonths : Z) : list HiringPlanItemInput.t :=
  filter (λ item, HiringPlanItemInput.monthOffset item ≤ monthIndex - delayMonths)
         hiringPlan.

Definition calculateCosts (revenue : number) (monthIndex : Z)
    (hiringPlan : list HiringPlanItemInput.t) (assumptions : AssumptionInput.t)
    (overrides : option ScenarioOverrides.t) : Costs.t :=
  let grossMarginDecimal :=
    (AssumptionInput.grossMarginPercent assumptions / int 100)%num in
  let cogs := (revenue * (int 1 - grossMarginDecimal))%num in
  let grossProfit := (revenue - cogs)%num in
  let variableCosts :=
    (revenue * AssumptionInput.variableCostPercentOfRevenue assumptions)%num in
  let customOverride := findCustomOverride overrides monthIndex in
  let fixedCosts :=
    nullish (customOverride ≫= MonthlyOverride.fixedCosts)
            (AssumptionInput.fixedCostsPerMonth assumptions) in
  let delayMonths := nullish (overrides ≫= ScenarioOverrides.hiringDelayMonths) 0 in
  let salaryMultiplier :=
    nullish (overrides ≫= ScenarioOverrides.salaryMultiplier) (int 1) in
  let salaryCosts :=
    fold_left
      (λ sum item,
         (sum + int (HiringPlanItemInput.count item)
                * HiringPlanItemInput.monthlySalaryPerHead item
                * salaryMultiplier)%num)
      (activeHires hiringPlan monthIndex delayMonths) (int 0) in
  let totalOpex := (cogs + variableCosts + fixedCosts + salaryCosts)%num in
  Costs.mk cogs grossProfit salaryCosts fixedCosts variableCosts totalOpex.

(** [None] is the [null] the source returns for a profitable or
    break-even month. *)
Definition calculateRunway (currentCash monthlyBurn : number) : option number :=
  if num_le currentCash (int 0) then Some (int 0)
  else if num_le monthlyBurn (int 0) then None
  else Some (currentCash / monthlyBurn)%num.

Definition calculateCAC (salesAndMarketingCosts newCustomers : number) : number :=
  if num_eq newCustomers (int 0) then int 0
  else (salesAndMarketingCosts / newCustomers)%num.

Definition calculateLTV (arpu churnRate : number) : number :=
  if num_eq churnRate (int 0) then PosInf else (arpu / churnRate)%num.

Definition calculateLTVtoCAC (ltv cac : number) : number :=
  if num_eq cac (int 0) then PosInf else (ltv / cac)%num.

Definition calculateBurnMultiple (netBurn netNewARR : number) : number :=
  if num_eq netNewARR (int 0) then PosInf else (netBurn / netNewARR)%num.

(** ** The projection driver (lib/financeEngine/index.ts) *)

Definition applyScenarioOverrides (assumptions : AssumptionInput.t)
    (overrides : option ScenarioOverrides.t) : AssumptionInput.t :=
  match overrides with
  | None => assumptions
  | Some overrides =>
      AssumptionInput.mk
        (AssumptionInput.name assumptions)
        (AssumptionInput.startMonth assumptions)
        (AssumptionInput.months assumptions)
        (AssumptionInput.pricingModel assumptions)
        (AssumptionInput.arpu assumptions
         * nullish (ScenarioOverrides.arpuMultiplier overrides) (int 1))%num
        (AssumptionInput.expectedNewCustomersPerMonth assumptions)
        (AssumptionInput.expansionRevenueRate assumptions
         + nullish (ScenarioOverrides.expansionRevenueRateAdjustment overrides)
                   (int 0))%num
        (Math_max (int 0)
           (Math_min (int 1)
              (AssumptionInput.churnRate assumptions
               + nullish (ScenarioOverrides.churnRateAdjustment overrides)
                         (int 0))%num))
        (AssumptionInput.cac assumptions)
        (AssumptionInput.paybackPeriodMonths assumptions)
        (AssumptionInput.grossMarginPercent assumptions
         + nullish (ScenarioOverrides.grossMarginAdjustment overrides) (int 0))%num
        (AssumptionInput.fixedCostsPerMonth assumptions
         * nullish (ScenarioOverrides.fixedCostsMultiplier overrides) (int 1))%num
        (AssumptionInput.variableCostPercentOfRevenue assumptions
         * nullish (ScenarioOverrides.variableCostMultiplier overrides) (int 1))%num
  end.

Definition calculateHeadcount (monthIndex : Z)
    (hiringPlan : list HiringPlanItemInput.t)
    (overrides : option ScenarioOverrides.t) : Z :=
  let delayMonths := nullish (overrides ≫= ScenarioOverrides.hiringDelayMonths) 0 in
  fold_left (λ sum item, sum + HiringPlanItemInput.count item)
            (activeHires hiringPlan monthIndex delayMonths) 0.

(** [Array.prototype.sort(compare)]: a stable sort; [a] moves behind [b]
    only when [compare(a, b) > 0]. *)
Fixpoint sort_insert {A} (compare : A → A → number) (a : A) (l : list A) : list A :=
  match l with
  | [] => [a]
  | b :: l' =>
      if num_gt (compare a b) (int 0) then b :: sort_insert compare a l'
      else a :: l
  end.

Definition sort {A} (compare : A → A → number) (l : list A) : list A :=
  foldr (sort_insert compare) [] l.

Definition generateSummary (projections : list MonthlyProjection.t)
    (assumptions : AssumptionInput.t) : outcome ProjectionSummary.t :=
  match projections with
  | [] => Throws "Cannot generate summary from empty projections"
  | firstProjection :: _ =>
      let lastProjection := List.last projections firstProjection in
      let burnProjections :=
        sort (λ a b, (MonthlyProjection.netBurn b - MonthlyProjection.netBurn a)%num)
             (List.filter (λ p, num_gt (MonthlyProjection.netBurn p) (int 0))
                          projections) in
      let peakBurnProjection := hd lastProjection burnProjections in
      let totalRevenue :=
        fold_left (λ sum p, (sum + MonthlyProjection.revenue p)%num)
                  projections (int 0) in
      let totalBurn :=
        fold_left
          (λ sum p, (sum + Math_max (int 0) (MonthlyProjection.netBurn p))%num)
          projections (int 0) in
      let avgMonthlyBurn :=
        if bool_decide (0 < length burnProjections)%nat
        then (fold_left (λ sum p, (sum + MonthlyProjection.netBurn p)%num)
                        burnProjections (int 0)
              / int (Z.of_nat (length burnProjections)))%num
        else int 0 in
      let zeroCashProjection :=
        find (λ p, num_le (MonthlyProjection.endingCash p) (int 0)) projections in
      let validRunways := omap id (MonthlyProjection.runwayMonths <$> projections) in
      let minRunway :=
        if bool_decide (0 < length validRunways)%nat
        then Some (fold_left Math_min validRunways PosInf)
        else None in
      let mrrGrowth :=
        if num_gt (MonthlyProjection.mrr firstProjection) (int 0)
        then ((MonthlyProjection.mrr lastProjection
               - MonthlyProjection.mrr firstProjection)
              / MonthlyProjection.mrr firstProjection * int 100)%num
        else int 0 in
      let avgMRR :=
        (fold_left (λ sum p, (sum + MonthlyProjection.mrr p)%num)
                   projections (int 0)
         / int (Z.of_nat (length projections)))%num in
      let avgChurnRate := AssumptionInput.churnRate assumptions in
      let ltv :=
        if num_gt avgChurnRate (int 0) then Some (avgMRR / avgChurnRate)%num
        else None in
      Returns
        (ProjectionSummary.mk
           "BASE"
           (MonthlyProjection.mrr firstProjection)
           (MonthlyProjection.mrr lastProjection)
           mrrGrowth
           (MonthlyProjection.netBurn peakBurnProjection)
           (MonthlyProjection.month peakBurnProjection)
           avgMonthlyBurn
           (MonthlyProjection.startingCash firstProjection)
           (MonthlyProjection.endingCash lastProjection)
           totalBurn
           (MonthlyProjection.month <$> zeroCashProjection)
           minRunway
           totalRevenue
           (MonthlyProjection.headcount firstProjection)
           (MonthlyProjection.headcount lastProjection)
           ltv
           (AssumptionInput.paybackPeriodMonths assumptions))
  end.

(** The state the loop of [runScenario] carries from month to month. *)
Record LoopState : Type := {
  currentCash : number;
  currentActiveCustomers : number
}.

Section Driver.
Variable assumptions effectiveAssumptions : AssumptionInput.t.
Variable hiringPlan : list HiringPlanItemInput.t.
Variable scenarioOverrides : option ScenarioOverrides.t.

(** The body of the loop for one [monthIndex]. *)
Definition projectMonth (monthIndex : Z) (st : LoopState) : MonthlyProjection.t :=
  let month := addMonths (AssumptionInput.startMonth assumptions) monthIndex in
  let customers :=
    calculateActiveCustomers (currentActiveCustomers st) effectiveAssumptions
                             monthIndex scenarioOverrides in
  let rev :=
    calculateRevenue (ActiveCustomers.activeCustomers customers)
                     effectiveAssumptions in
  let costs :=
    calculateCosts (Revenue.revenue rev) monthIndex hiringPlan
                   effectiveAssumptions scenarioOverrides in
  let netBurn := (Costs.totalOpex costs - Revenue.revenue rev)%num in
  let startingCash := currentCash st in
  let endingCash := (startingCash - netBurn)%num in
  let runwayMonths := calculateRunway endingCash netBurn in
  let headcount := calculateHeadcount monthIndex hiringPlan scenarioOverrides in
  MonthlyProjection.mk
    monthIndex month startingCash endingCash netBurn runwayMonths
    (ActiveCustomers.newCustomers customers)
    (ActiveCustomers.churnedCustomers customers)
    (ActiveCustomers.activeCustomers customers)
    (Revenue.mrr rev) (Revenue.revenue rev)
    (Costs.cogs costs) (Costs.grossProfit costs) (Costs.salaryCosts costs)
    (Costs.fixedCosts costs) (Costs.variableCosts costs) (Costs.totalOpex costs)
    headcount.

(** The state handed to the next month. *)
Definition advance (p : MonthlyProjection.t) : LoopState :=
  {| currentCash := MonthlyProjection.endingCash p;
     currentActiveCustomers := MonthlyProjection.activeCustomers p |}.

(** [remaining] iterations of the loop starting at [monthIndex]; the
    result is the list of records pushed, in order. *)
Fixpoint projectMonths (remaining : nat) (monthIndex : Z) (st : LoopState)
    : list MonthlyProjection.t :=
  match remaining with
  | O => []
  | S remaining' =>
      let projection := projectMonth monthIndex st in
      projection :: projectMonths remaining' (monthIndex + 1) (advance projection)
  end.
End Driver.

(** The starting state: [assumptions.startingMRR] is a read of a property
    that [AssumptionInput] does not declare. *)
Definition initialState (company : CompanyInput.t)
    (assumptions : AssumptionInput.t) : LoopState :=
  {| currentCash := CompanyInput.startingCash company;
     currentActiveCustomers :=
       num_or
         (ToNumber (read_prop (AssumptionInput.number_props assumptions)
                              "startingMRR")
          / AssumptionInput.arpu assumptions)%num
         (int 0) |}.

Definition runScenario (input : FinancialModelInput)
    : outcome FinancialModelOutput :=
  let effectiveAssumptions :=
    applyScenarioOverrides (assumptions input) (scenarioOverrides input) in
  let projections :=
    projectMonths (assumptions input) effectiveAssumptions (hiringPlan input)
                  (scenarioOverrides input)
                  (Z.to_nat (AssumptionInput.months (assumptions input))) 0
                  (initialState (company input) (assumptions input)) in
  match generateSummary projections (assumptions input) with
  | Returns summary => Returns {| projections := projections; summary := summary |}
  | Throws msg => Throws msg
  end.

(** ** The sanity checker (lib/financeEngine/sanityCheck.ts) *)

Inductive Severity : Type := low | medium | high.

#[global] Instance Severity_eq_dec : EqDecision Severity.
Proof. solve_decision. Defined.

(** A warning text: a fixed string, or a template literal
    [`pre${x.toFixed(1)}post`] kept with the number it prints. *)
Inductive Message : Type :=
  | Text (s : string)
  | ToFixed1 (pre : string) (x : number) (post : string).

Record SanityWarning : Type := {
  severity : Severity;
  field : string;
  message : Message;
  suggestion : option string
}.

Record SanityCheckResult : Type := {
  passed : bool;
  warnings : list SanityWarning
}.

(** [if (c) warnings.push(w)] *)
Definition pushIf (c : bool) (w : SanityWarning) (warnings : list SanityWarning)
    : list SanityWarning :=
  if c then warnings ++ [w] else warnings.

Definition checkChurnRate (a : AssumptionInput.t) (warnings : list SanityWarning)
    : list SanityWarning :=
  let churnRate := AssumptionInput.churnRate a in
  if num_lt churnRate (int 0) || num_gt churnRate (int 1) then
    warnings ++
      [ {| severity := high; field := "churnRate";
           message := Text "Churn rate must be between 0 and 1 (0% to 100%)";
           suggestion := Some "Typical SaaS churn rates are 3-7% monthly for SMB, 0.5-1% for enterprise" |} ]
  else
    pushIf (num_gt churnRate (dec 15 100))
      {| severity := medium; field := "churnRate";
         message := Text "Churn rate is unusually high (>15% monthly)";
         suggestion := Some "Consider if this is realistic for your business model" |}
      warnings.

Definition checkArpu (a : AssumptionInput.t) (warnings : list SanityWarning)
    : list SanityWarning :=
  let arpu := AssumptionInput.arpu a in
  if num_le arpu (int 0) then
    warnings ++
      [ {| severity := high; field := "arpu";
           message := Text "ARPU (Average Revenue Per User) must be positive";
           suggestion := None |} ]
  else
    pushIf (num_lt arpu (int 10))
      {| severity := low; field := "arpu";
         message := Text "ARPU is very low (<$10)";
         suggestion := Some "Verify this matches your pricing model" |}
      warnings.

Definition checkCacPayback (a : AssumptionInput.t) (warnings : list SanityWarning)
    : list SanityWarning :=
  pushIf (num_le (AssumptionInput.cac a) (int 0)
          && bool_decide (0 < AssumptionInput.paybackPeriodMonths a))
    {| severity := medium; field := "cac";
       message := Text "CAC is zero but payback period is set";
       suggestion := Some "Either set a realistic CAC or set payback to 0" |}
    warnings.

Definition checkLtvToCac (a : AssumptionInput.t) (warnings : list SanityWarning)
    : list SanityWarning :=
  if num_gt (AssumptionInput.cac a) (int 0)
     && num_gt (AssumptionInput.churnRate a) (int 0) then
    let ltv := calculateLTV (AssumptionInput.arpu a) (AssumptionInput.churnRate a) in
    let ltvToCac := calculateLTVtoCAC ltv (AssumptionInput.cac a) in
    pushIf (num_lt ltvToCac (int 3))
      {| severity := high; field := "cac";
         message := ToFixed1 "LTV:CAC ratio is " ltvToCac " (< 3:1)";
         suggestion := Some "Healthy SaaS businesses typically have LTV:CAC > 3. Consider reducing CAC or improving retention." |}
      warnings
  else warnings.

Definition checkPaybackPeriod (a : AssumptionInput.t)
    (warnings : list SanityWarning) : list SanityWarning :=
  pushIf (bool_decide (24 < AssumptionInput.paybackPeriodMonths a))
    {| severity := medium; field := "paybackPeriodMonths";
       message := Text "CAC payback period is > 24 months";
       suggestion := Some "Target payback period is typically 12-18 months for healthy SaaS" |}
    warnings.

Definition checkGrossMargin (a : AssumptionInput.t)
    (warnings : list SanityWarning) : list SanityWarning :=
  let grossMarginPercent := AssumptionInput.grossMarginPercent a in
  if num_lt grossMarginPercent (int 0) || num_gt grossMarginPercent (int 100) then
    warnings ++
      [ {| severity := high; field := "grossMarginPercent";
           message := Text "Gross margin must be between 0% and 100%";
           suggestion := None |} ]
  else
    pushIf (num_lt grossMarginPercent (int 50))
      {| severity := medium; field := "grossMarginPercent";
         message := Text "Gross margin is below 50%";
         suggestion := Some "Typical SaaS gross margins are 70-85%" |}
      warnings.

Definition checkStartingCash (company : CompanyInput.t) (a : AssumptionInput.t)
    (warnings : list SanityWarning) : list SanityWarning :=
  let estimatedMonthlyBurn :=
    (AssumptionInput.fixedCostsPerMonth a
     + AssumptionInput.expectedNewCustomersPerMonth a * AssumptionInput.cac a)%num in
  let estimatedRunway :=
    (CompanyInput.startingCash company / estimatedMonthlyBurn)%num in
  if num_lt estimatedRunway (int 6) then
    warnings ++
      [ {| severity := high; field := "startingCash";
           message := ToFixed1 "Estimated runway is " estimatedRunway " months (< 6 months)";
           suggestion := Some "Consider raising more capital or reducing burn" |} ]
  else
    pushIf (num_lt estimatedRunway (int 12))
      {| severity := medium; field := "startingCash";
         message := ToFixed1 "Estimated runway is " estimatedRunway " months (< 12 months)";
         suggestion := Some "Start planning your next fundraise" |}
      warnings.

Definition checkGrowthRate (a : AssumptionInput.t)
    (warnings : list SanityWarning) : list SanityWarning :=
  pushIf (num_lt (AssumptionInput.expectedNewCustomersPerMonth a) (int 0))
    {| severity := high; field := "expectedNewCustomersPerMonth";
       message := Text "Expected new customers cannot be negative";
       suggestion := None |}
    warnings.

Definition checkExpansionRevenue (a : AssumptionInput.t)
    (warnings : list SanityWarning) : list SanityWarning :=
  let rate := AssumptionInput.expansionRevenueRate a in
  pushIf (num_lt rate (int 0) || num_gt rate (int 1))
    {| severity := medium; field := "expansionRevenueRate";
       message := Text "Expansion revenue rate should be between 0 and 1 (0% to 100%)";
       suggestion := Some "Typical expansion rates are 5-25% annually for strong SaaS companies" |}
    warnings.

(** The checks run in source order, each appending to [warnings]. *)
Definition collectWarnings (company : CompanyInput.t) (a : AssumptionInput.t)
    : list SanityWarning :=
  checkExpansionRevenue a
    (checkGrowthRate a
      (checkStartingCash company a
        (checkGrossMargin a
          (checkPaybackPeriod a
            (checkLtvToCac a
              (checkCacPayback a
                (checkArpu a
                  (checkChurnRate a [])))))))).

Definition runSanityChecks (company : CompanyInput.t) (a : AssumptionInput.t)
    : SanityCheckResult :=
  let warnings := collectWarnings company a in
  {| passed :=
       bool_decide
         (length (List.filter (λ w, bool_decide (severity w = high)) warnings) = 0%nat);
     warnings := warnings |}.

(** ** Benchmarks *)

Module Range.
Record t : Type := mk { min : number; max : number; target : number }.
End Range.

Module Benchmarks.
Record t : Type := mk {
  churnRate : Range.t;
  grossMargin : Range.t;
  ltvToCac : Range.t;
  paybackMonths : Range.t
}.
End Benchmarks.

Definition benchmarks_PRE_SEED : Benchmarks.t :=
  Benchmarks.mk
    (Range.mk (dec 3 100) (dec 1 10) (dec 5 100))
    (Range.mk (int 60) (int 85) (int 75))
    (Range.mk (int 2) (int 5) (int 3))
    (Range.mk (int 6) (int 18) (int 12)).

Definition benchmarks_SEED : Benchmarks.t :=
  Benchmarks.mk
    (Range.mk (dec 2 100) (dec 7 100) (dec 4 100))
    (Range.mk (int 65) (int 85) (int 78))
    (Range.mk (int 3) (int 6) (int 4))
    (Range.mk (int 6) (int 15) (int 10)).

Definition benchmarks_SERIES_A : Benchmarks.t :=
  Benchmarks.mk
    (Range.mk (dec 1 100) (dec 5 100) (dec 3 100))
    (Range.mk (int 70) (int 90) (int 80))
    (Range.mk (int 3) (int 7) (int 5))
    (Range.mk (int 6) (int 12) (int 9)).

(** What a read [benchmarks[stage]] can yield: one of the tiers, or a
    member that the object literal inherits from [Object.prototype]. *)
Inductive BenchmarkValue : Type :=
  | Tier (b : Benchmarks.t)
  | ObjectPrototypeMember (key : string).

(** The own properties of the [benchmarks] object literal. *)
Definition benchmarks : list (string * Benchmarks.t) :=
  [ ("PRE_SEED", benchmarks_PRE_SEED);
    ("SEED", benchmarks_SEED);
    ("SERIES_A", benchmarks_SERIES_A) ]%string.

(** The property names of [Object.prototype], which every object literal
    inherits; each of them reads as a function or an object, hence truthy. *)
Definition Object_prototype_keys : list string :=
  [ "constructor"; "__defineGetter__"; "__defineSetter__"; "hasOwnProperty";
    "__lookupGetter__"; "__lookupSetter__"; "isPrototypeOf";
    "propertyIsEnumerable"; "toString"; "valueOf"; "__proto__";
    "toLocaleString" ]%string.

(** [benchmarks[stage]]: own properties first, then the prototype. *)
Definition benchmarks_get (stage : string) : option BenchmarkValue :=
  match read_prop benchmarks stage with
  | Some b => Some (Tier b)
  | None =>
      if bool_decide (stage ∈ Object_prototype_keys)
      then Some (ObjectPrototypeMember stage)
      else None
  end.

(** [benchmarks[stage] || benchmarks.SEED]; every value a read can yield
    here is an object or a function, so only [undefined] is falsy. *)
Definition getBenchmarks (stage : string) : BenchmarkValue :=
  match benchmarks_get stage with
  | Some v => v
  | None => Tier benchmarks_SEED
  end.

(** ** More of the utilities (lib/financeEngine/utils.ts) *)

(** [parseMonth]: the [Date] of a [YYYY-MM] label. *)
Definition parseMonth (monthString : YearMonth) : Date :=
  newDate (ym_year monthString) (ym_month monthString - 1).

Definition getMonthDifference (start end_ : YearMonth) : Z :=
  let startDate := parseMonth start in
  let endDate := parseMonth end_ in
  (getFullYear endDate - getFullYear startDate) * 12
  + (getMonth endDate - getMonth startDate).

Definition calculatePercentageChange (oldValue newValue : number) : number :=
  if num_eq oldValue (int 0)
  then (if num_gt newValue (int 0) then int 100 else int 0)
  else ((newValue - oldValue) / oldValue * int 100)%num.

Definition clamp (value min max : number) : number :=
  Math_min (Math_max value min) max.

(** ** Notions used to state the properties *)

(** Months counted from year 0: the position of a date in calendar order. *)
Definition monthOrdinal (d : Date) : Z := 12 * getFullYear d + getMonth d.

(** The entries of [customMonthlyOverrides]; an absent list has none. *)
Definition overrideEntries (ov : option ScenarioOverrides.t)
    : list MonthlyOverride.t :=
  default [] (ov ≫= ScenarioOverrides.customMonthlyOverrides).

(** [e] is the first entry of [entries] whose [monthOffset] is [m]. *)
Definition firstEntryFor (m : Z) (entries : list MonthlyOverride.t)
    (e : MonthlyOverride.t) : Prop :=
  ∃ pre post,
    entries = pre ++ e :: post ∧
    Forall (λ o, MonthlyOverride.monthOffset o ≠ m) pre ∧
    MonthlyOverride.monthOffset e = m.

(** No entry of [entries] has [monthOffset = m]. *)
Definition noEntryFor (m : Z) (entries : list MonthlyOverride.t) : Prop :=
  Forall (λ o, MonthlyOverride.monthOffset o ≠ m) entries.

(** The arithmetic mean of [mrr] over the projected months. *)
Definition meanMRR (ps : list MonthlyProjection.t) : number :=
  (fold_left num_add (MonthlyProjection.mrr <$> ps) (int 0)
   / int (Z.of_nat (length ps)))%num.

(** A number that is neither [NaN] nor an infinity. *)
Definition finite (x : number) : Prop :=
  match x with Fin _ => True | _ => False end.

(** An optional number that is finite when present. *)
Definition finiteOpt (x : option number) : Prop :=
  match x with Some v => finite v | None => True end.

(** The overrides [ov] with [hiringDelayMonths] set to [d]. *)
Definition setHiringDelay (ov : ScenarioOverrides.t) (d : option Z)
    : ScenarioOverrides.t :=
  ScenarioOverrides.mk
    (ScenarioOverrides.customerGrowthMultiplier ov)
    (ScenarioOverrides.arpuMultiplier ov)
    (ScenarioOverrides.churnRateAdjustment ov)
    (ScenarioOverrides.expansionRevenueRateAdjustment ov)
    (ScenarioOverrides.grossMarginAdjustment ov)
    (ScenarioOverrides.fixedCostsMultiplier ov)
    (ScenarioOverrides.variableCostMultiplier ov)
    d
    (ScenarioOverrides.salaryMultiplier ov)
    (ScenarioOverrides.customMonthlyOverrides ov).

(** All the numbers of the assumptions that the engine computes with are
    finite. *)
Definition finiteAssumptions (a : AssumptionInput.t) : Prop :=
  finite (AssumptionInput.arpu a) ∧
  finite (AssumptionInput.expectedNewCustomersPerMonth a) ∧
  finite (AssumptionInput.expansionRevenueRate a) ∧
  finite (AssumptionInput.churnRate a) ∧
  finite (AssumptionInput.grossMarginPercent a) ∧
  finite (AssumptionInput.fixedCostsPerMonth a) ∧
  finite (AssumptionInput.variableCostPercentOfRevenue a).

(** Every number that the overrides give is finite. *)
Definition finiteOverrides (ov : option ScenarioOverrides.t) : Prop :=
  match ov with
  | None => True
  | Some o =>
      finiteOpt (ScenarioOverrides.customerGrowthMultiplier o) ∧
      finiteOpt (ScenarioOverrides.arpuMultiplier o) ∧
      finiteOpt (ScenarioOverrides.churnRateAdjustment o) ∧
      finiteOpt (ScenarioOverrides.expansionRevenueRateAdjustment o) ∧
      finiteOpt (ScenarioOverrides.grossMarginAdjustment o) ∧
      finiteOpt (ScenarioOverrides.fixedCostsMultiplier o) ∧
      finiteOpt (ScenarioOverrides.variableCostMultiplier o) ∧
      finiteOpt (ScenarioOverrides.salaryMultiplier o) ∧
      Forall (λ e, finiteOpt (MonthlyOverride.newCustomers e) ∧
                   finiteOpt (MonthlyOverride.fixedCosts e))
             (default [] (ScenarioOverrides.customMonthlyOverrides o))
  end.

(** Every number of a monthly record is finite ([runwayMonths] may be null). *)
Definition finiteProjection (p : MonthlyProjection.t) : Prop :=
  finite (MonthlyProjection.startingCash p) ∧
  finite (MonthlyProjection.endingCash p) ∧
  finite (MonthlyProjection.netBurn p) ∧
  finiteOpt (MonthlyProjection.runwayMonths p) ∧
  finite (MonthlyProjection.newCustomers p) ∧
  finite (MonthlyProjection.churnedCustomers p) ∧
  finite (MonthlyProjection.activeCustomers p) ∧
  finite (MonthlyProjection.mrr p) ∧
  finite (MonthlyProjection.revenue p) ∧
  finite (MonthlyProjection.cogs p) ∧
  finite (MonthlyProjection.grossProfit p) ∧
  finite (MonthlyProjection.salaryCosts p) ∧
  finite (MonthlyProjection.fixedCosts p) ∧
  finite (MonthlyProjection.variableCosts p) ∧
  finite (MonthlyProjection.totalOpex p).

(** The sum of a field over the records, added up from 0 as [reduce] does. *)
Definition total (f : MonthlyProjection.t → number)
    (ps : list MonthlyProjection.t) : number :=
  fold_left num_add (f <$> ps) (int 0).

(** The rational value of a finite number (0 for the others). *)
Definition qval (x : number) : Qc :=
  match x with Fin q => q | _ => 0%Qc end.

(** The exact sum of the values of a list of numbers. *)
Definition qsum (l : list number) : Qc :=
  foldr (λ x acc, (qval x + acc)%Qc) 0%Qc l.

(** The months of a run that burn cash ([netBurn > 0]). *)
Definition burnMonths (ps : list MonthlyProjection.t) : list MonthlyProjection.t :=
  List.filter (λ p, num_gt (MonthlyProjection.netBurn p) (int 0)) ps.

(** A warning of severity "high". *)
Definition isHigh (w : SanityWarning) : bool := bool_decide (severity w = high).

(** A warning about the field [name]. *)
Definition aboutField (name : string) (w : SanityWarning) : bool :=
  bool_decide (field w = name).

(** The burn that the sanity checker estimates:
    [fixedCostsPerMonth + expectedNewCustomersPerMonth * cac]. *)
Definition estimatedMonthlyBurn (a : AssumptionInput.t) : number :=
  (AssumptionInput.fixedCostsPerMonth a
   + AssumptionInput.expectedNewCustomersPerMonth a * AssumptionInput.cac a)%num.

(** The year and the month that [formatMonth] prints for a date, as
    [split("-").map(Number)] reads them back from the label. *)
Definition labelOf (date : Date) : YearMonth :=
  {| ym_year := getFullYear date; ym_month := getMonth date + 1 |}.

(** ** The scenario of the quick-start guide *)

Module Guide.
Definition company : CompanyInput.t :=
  CompanyInput.mk "Test Startup" "SEED" "SAAS" "US" "USD"
                  (int 500000) (int 10000) 5.

Definition assumptions : AssumptionInput.t :=
  AssumptionInput.mk "Base Case" {| ym_year := 2024; ym_month := 1 |} 24
    "PER_SEAT" (int 100) (int 10) (dec 5 100) (dec 5 100) (int 500) 12
    (int 80) (int 15000) (dec 1 10).

Definition hiringPlan : list HiringPlanItemInput.t :=
  [ HiringPlanItemInput.mk 0 "Engineer" 3 (int 10000) "ENGINEERING";
    HiringPlanItemInput.mk 6 "Sales Rep" 2 (int 8000) "SALES" ].

Definition input : FinancialModelInput :=
  Build_FinancialModelInput company assumptions hiringPlan None.
End Guide.

(** Equality of two computed numbers, by evaluation. *)
Ltac number_compute :=
  match goal with
  | |- ?x = ?y => apply (bool_decide_eq_true_1 (x = y)); vm_compute; reflexivity
  end.

(** * Properties *)

(** ** Arithmetic of [number] *)

Lemma Fin_int_0 (q : Qc) : Fin q = int 0 ↔ q = 0%Qc.
Proof.
  unfold int. rewrite Z2Qc_inj_0. split; [by intros [= ->] | by intros ->].
Qed.

Lemma num_mul_1_r (x : number) : (x * int 1)%num = x.
Proof.
  destruct x as [a| | |]; try reflexivity.
  unfold int; simpl. by rewrite Z2Qc_inj_1, Qcmult_1_r.
Qed.

Lemma num_add_0_r (x : number) : (x + int 0)%num = x.
Proof.
  destruct x as [a| | |]; try reflexivity.
  unfold int; simpl. by rewrite Z2Qc_inj_0, Qcplus_0_r.
Qed.

(** A number between two finite bounds is finite. *)
Lemma num_between_Fin (lo hi : Qc) (x : number) :
  num_le (Fin lo) x = true → num_le x (Fin hi) = true →
  ∃ q, x = Fin q ∧ (lo ≤ q)%Qc ∧ (q ≤ hi)%Qc.
Proof.
  destruct x as [q| | |]; simpl; try discriminate.
  intros H1%bool_decide_eq_true H2%bool_decide_eq_true. eauto.
Qed.

(** The clamp of [applyScenarioOverrides] leaves a rate of [0..1] alone. *)
Lemma clamp_unit_interval (c : number) :
  num_le (int 0) c = true → num_le c (int 1) = true →
  Math_max (int 0) (Math_min (int 1) c) = c.
Proof.
  intros H0 H1.
  destruct (num_between_Fin _ _ _ H0 H1) as (q & -> & Hlo & Hhi).
  rewrite Z2Qc_inj_0 in Hlo. rewrite Z2Qc_inj_1 in Hhi.
  assert (Math_min (int 1) (Fin q) = Fin q) as ->.
  { unfold Math_min, int. simpl. case_bool_decide as Hlt; [done|].
    f_equal. rewrite Z2Qc_inj_1. apply Qcle_antisym; [|done].
    by apply Qcnot_lt_le. }
  unfold Math_max, int. simpl. case_bool_decide as Hlt; [done|].
  f_equal. rewrite Z2Qc_inj_0 in *. apply Qcle_antisym; [done|].
  by apply Qcnot_lt_le.
Qed.

(** [Math.max(0, x)] is never below zero. *)
Lemma Math_max_0_not_negative (x : number) :
  num_lt (Math_max (int 0) x) (int 0) = false.
Proof.
  destruct x as [q| | |]; try reflexivity.
  unfold Math_max, int. simpl. rewrite Z2Qc_inj_0.
  case_bool_decide as Hlt; simpl; [|done].
  apply bool_decide_eq_false. by apply Qcle_not_lt, Qclt_le_weak.
Qed.

(** ** The loop of [runScenario] *)

Section Loop.
Variable assumptions effectiveAssumptions : AssumptionInput.t.
Variable hiringPlan : list HiringPlanItemInput.t.
Variable scenarioOverrides : option ScenarioOverrides.t.

Local Abbreviation step :=
  (projectMonth assumptions effectiveAssumptions hiringPlan scenarioOverrides).
Local Abbreviation run :=
  (projectMonths assumptions effectiveAssumptions hiringPlan scenarioOverrides).

Lemma projectMonths_length (n : nat) (i : Z) (st : LoopState) :
  length (run n i st) = n.
Proof.
  revert i st. induction n as [|n IH]; intros i st; simpl; [done|].
  f_equal. apply IH.
Qed.

(** The record at position [k] is the loop body run at month [i + k]
    on some state. *)
Lemma projectMonths_lookup (n : nat) (i : Z) (st : LoopState) (k : nat)
    (p : MonthlyProjection.t) :
  run n i st !! k = Some p → ∃ st', p = step (i + Z.of_nat k) st'.
Proof.
  revert i st k. induction n as [|n IH]; intros i st k; simpl; [done|].
  destruct k as [|k]; simpl.
  - intros [= <-]. exists st. by rewrite Z.add_0_r.
  - intros H. destruct (IH _ _ _ H) as [st' ->]. exists st'.
    f_equal. lia.
Qed.

Lemma projectMonths_elem_of (n : nat) (i : Z) (st : LoopState)
    (p : MonthlyProjection.t) :
  p ∈ run n i st → ∃ k st', (k < n)%nat ∧ p = step (i + Z.of_nat k) st'.
Proof.
  intros (k & Hk)%list_elem_of_lookup_1.
  destruct (projectMonths_lookup _ _ _ _ _ Hk) as [st' ->].
  exists k, st'. split; [|done].
  apply lookup_lt_Some in Hk. by rewrite projectMonths_length in Hk.
Qed.
End Loop.

(** [runScenario] returns as soon as the horizon has a month, and the
    records it returns are those the loop pushed. *)
Lemma runScenario_returns (input : FinancialModelInput) :
  1 ≤ AssumptionInput.months (assumptions input) →
  ∃ out, runScenario input = Returns out ∧
    projections out =
      projectMonths (assumptions input)
        (applyScenarioOverrides (assumptions input) (scenarioOverrides input))
        (hiringPlan input) (scenarioOverrides input)
        (Z.to_nat (AssumptionInput.months (assumptions input))) 0
        (initialState (company input) (assumptions input)).
Proof.
  intros Hm. unfold runScenario.
  set (ps := projectMonths _ _ _ _ _ _ _).
  assert (length ps = Z.to_nat (AssumptionInput.months (assumptions input)))
    as Hlen by apply projectMonths_length.
  destruct ps as [|p ps']; [simpl in Hlen; lia|].
  unfold generateSummary. eexists. split; reflexivity.
Qed.

Lemma runScenario_projections (input : FinancialModelInput)
    (out : FinancialModelOutput) :
  runScenario input = Returns out →
  projections out =
    projectMonths (assumptions input)
      (applyScenarioOverrides (assumptions input) (scenarioOverrides input))
      (hiringPlan input) (scenarioOverrides input)
      (Z.to_nat (AssumptionInput.months (assumptions input))) 0
      (initialState (company input) (assumptions input)).
Proof.
  unfold runScenario.
  destruct (generateSummary _ _) as [s|msg]; [|done].
  by intros [= <-].
Qed.

(** ** The starting customer count *)

(** [AssumptionInput] has no [startingMRR]: the read is [undefined]. *)
Lemma assumptions_startingMRR_undefined (a : AssumptionInput.t) :
  read_prop (AssumptionInput.number_props a) "startingMRR" = None.
Proof. reflexivity. Qed.

(** Whatever the company and the assumptions, the loop starts from zero
    customers: [undefined / arpu] is [NaN], and [NaN || 0] is [0]. *)
Lemma initialState_customers (c : CompanyInput.t) (a : AssumptionInput.t) :
  currentActiveCustomers (initialState c a) = int 0.
Proof. reflexivity. Qed.

(** C1, evaluated on the guide's scenario (startingMRR 10000, arpu 100):
    the loop starts from 0 customers, not 10000/100 = 100, and the month-0
    record has 10 active customers and an MRR of 1050. *)
Theorem runScenario_starting_customers_C1 :
  (CompanyInput.startingMRR Guide.company / AssumptionInput.arpu Guide.assumptions)%num
    = int 100 ∧
  currentActiveCustomers (initialState Guide.company Guide.assumptions) = int 0 ∧
  ∃ out p,
    runScenario Guide.input = Returns out ∧
    projections out !! 0%nat = Some p ∧
    MonthlyProjection.activeCustomers p = int 10 ∧
    MonthlyProjection.mrr p = int 1050.
Proof.
  split; [number_compute|]. split; [reflexivity|].
  destruct (runScenario_returns Guide.input) as (out & Hout & Hp); [done|].
  exists out,
    (projectMonth Guide.assumptions Guide.assumptions Guide.hiringPlan None 0
                  (initialState Guide.company Guide.assumptions)).
  split; [done|]. rewrite Hp. split; [reflexivity|].
  split; number_compute.
Qed.

(** Started from 100 customers, the loop body for month 0 of the guide's
    scenario adds the month's new customers and removes its churn before
    the record is written: 105 active customers and an MRR of 11025. *)
Lemma projectMonth_guide_from_100 :
  let p := projectMonth Guide.assumptions Guide.assumptions Guide.hiringPlan None 0
             {| currentCash := int 500000; currentActiveCustomers := int 100 |} in
  MonthlyProjection.activeCustomers p = int 105 ∧
  MonthlyProjection.mrr p = int 11025.
Proof. split; number_compute. Qed.

(** ** Runway *)

Lemma calculateRunway_cases (cash burn : number) :
  (num_le cash (int 0) = true → calculateRunway cash burn = Some (int 0)) ∧
  (num_le cash (int 0) = false → num_le burn (int 0) = true →
     calculateRunway cash burn = None) ∧
  (num_le cash (int 0) = false → num_le burn (int 0) = false →
     calculateRunway cash burn = Some (cash / burn)%num).
Proof.
  unfold calculateRunway. repeat split.
  - by intros ->.
  - by intros -> ->.
  - by intros -> ->.
Qed.

(** The first test wins: a month that ends with no cash reports a runway
    of 0 even when it is profitable. *)
Lemma calculateRunway_no_cash_profitable :
  calculateRunway (int (-900)) (int (-100)) = Some (int 0).
Proof. reflexivity. Qed.

(** C2: in every record that [runScenario] returns, [runwayMonths] is
    [calculateRunway] of the month's ending cash and net burn: 0 when the
    ending cash is at most 0; otherwise null when the net burn is at most 0;
    otherwise the ending cash divided by the net burn. *)
Theorem runwayMonths_is_calculateRunway_C2 (input : FinancialModelInput)
    (out : FinancialModelOutput) (p : MonthlyProjection.t) :
  runScenario input = Returns out →
  p ∈ projections out →
  let cash := MonthlyProjection.endingCash p in
  let burn := MonthlyProjection.netBurn p in
  MonthlyProjection.runwayMonths p = calculateRunway cash burn ∧
  (num_le cash (int 0) = true →
     MonthlyProjection.runwayMonths p = Some (int 0)) ∧
  (num_le cash (int 0) = false → num_le burn (int 0) = true →
     MonthlyProjection.runwayMonths p = None) ∧
  (num_le cash (int 0) = false → num_le burn (int 0) = false →
     MonthlyProjection.runwayMonths p = Some (cash / burn)%num).
Proof.
  intros Hrun Hp cash burn.
  assert (MonthlyProjection.runwayMonths p = calculateRunway cash burn) as ->.
  { rewrite (runScenario_projections _ _ Hrun) in Hp.
    apply projectMonths_elem_of in Hp as (k & st & _ & ->). reflexivity. }
  split; [done|]. apply calculateRunway_cases.
Qed.

Lemma runwayMonths_is_calculateRunway_C2_witness :
  ∃ out p,
    runScenario Guide.input = Returns out ∧ p ∈ projections out ∧
    MonthlyProjection.runwayMonths p
      = calculateRunway (MonthlyProjection.endingCash p)
                        (MonthlyProjection.netBurn p).
Proof.
  destruct (runScenario_returns Guide.input) as (out & Hout & Hp); [done|].
  exists out,
    (projectMonth Guide.assumptions Guide.assumptions Guide.hiringPlan None 0
                  (initialState Guide.company Guide.assumptions)).
  assert (projectMonth Guide.assumptions Guide.assumptions Guide.hiringPlan None 0
            (initialState Guide.company Guide.assumptions) ∈ projections out)
    as Hin by (rewrite Hp; apply list_elem_of_here).
  split; [done|]. split; [done|].
  exact (proj1 (runwayMonths_is_calculateRunway_C2 Guide.input out _ Hout Hin)).
Defined.

(** ** Length and order of the projections *)

(** [addMonths] moves the date parsed from [startMonth] forward by exactly
    [n] calendar months, carrying into the year. *)
Lemma addMonthsDate_ordinal (startMonth : YearMonth) (n : Z) :
  monthOrdinal (addMonthsDate startMonth n)
    = monthOrdinal (addMonthsDate startMonth 0) + n
  ∧ 0 ≤ getMonth (addMonthsDate startMonth n) < 12.
Proof.
  unfold monthOrdinal, addMonthsDate, setMonth, newDate; cbn [getFullYear getMonth].
  set (y := if bool_decide _ then _ else _).
  set (m := ym_month startMonth - 1).
  rewrite Z.add_0_r, Z.mod_mod by lia.
  rewrite (Z.div_small (m `mod` 12) 12) by (apply Z.mod_pos_bound; lia).
  pose proof (Z.div_mod (m `mod` 12 + n) 12 ltac:(lia)) as Hdm.
  pose proof (Z.mod_pos_bound (m `mod` 12 + n) 12 ltac:(lia)) as Hb.
  split; lia.
Qed.



(** ** What the simulation reads of the company *)

Lemma projection_headcount (input : FinancialModelInput)
    (out : FinancialModelOutput) (p : MonthlyProjection.t) :
  runScenario input = Returns out → p ∈ projections out →
  MonthlyProjection.headcount p
    = calculateHeadcount (MonthlyProjection.monthIndex p) (hiringPlan input)
                         (scenarioOverrides input).
Proof.
  intros Hrun Hp. rewrite (runScenario_projections _ _ Hrun) in Hp.
  by apply projectMonths_elem_of in Hp as (k & st & _ & ->).
Qed.

(** C9: two inputs that differ only in company fields other than
    [startingCash] give the same outcome (projections and summary);
    [currentHeadcount] in particular is never read. *)
Theorem runScenario_reads_only_startingCash_C9 (c1 c2 : CompanyInput.t)
    (a : AssumptionInput.t) (hp : list HiringPlanItemInput.t)
    (ov : option ScenarioOverrides.t) :
  CompanyInput.startingCash c1 = CompanyInput.startingCash c2 →
  runScenario (Build_FinancialModelInput c1 a hp ov)
    = runScenario (Build_FinancialModelInput c2 a hp ov).
Proof.
  intros Hcash. unfold runScenario, initialState.
  cbn [company assumptions hiringPlan scenarioOverrides].
  by rewrite Hcash.
Qed.

Lemma runScenario_reads_only_startingCash_C9_witness :
  runScenario
      (Build_FinancialModelInput Guide.company Guide.assumptions
                                 Guide.hiringPlan None)
    = runScenario
        (Build_FinancialModelInput
           (CompanyInput.mk "Other" "SERIES_A" "FINTECH" "DE" "EUR"
                            (int 500000) (int 0) 40)
           Guide.assumptions Guide.hiringPlan None).
Proof.
  apply runScenario_reads_only_startingCash_C9. reflexivity.
Defined.

(** ** The sanity checker *)

Lemma filter_length_0 {A} (f : A → bool) (l : list A) :
  length (List.filter f l) = 0%nat ↔ ∀ x, x ∈ l → f x = false.
Proof.
  induction l as [|y l IH]; simpl.
  - split; [|done]. intros _ x Hx. by apply elem_of_nil in Hx.
  - destruct (f y) eqn:Hy; simpl.
    + split; [done|]. intros H. specialize (H y (list_elem_of_here _ _)). congruence.
    + rewrite IH. split.
      * intros H x [->|Hx]%elem_of_cons; auto.
      * intros H x Hx. apply H. by apply list_elem_of_further.
Qed.

(** C8: [passed] is true exactly when no warning has severity "high". *)
Theorem runSanityChecks_passed_C8 (company : CompanyInput.t)
    (a : AssumptionInput.t) :
  passed (runSanityChecks company a) = true ↔
  ∀ w, w ∈ warnings (runSanityChecks company a) → severity w ≠ high.
Proof.
  unfold runSanityChecks; cbn [passed warnings].
  rewrite bool_decide_eq_true, filter_length_0.
  split; intros H w Hw; specialize (H w Hw).
  - by apply bool_decide_eq_false in H.
  - by apply bool_decide_eq_false.
Qed.

(** The guide's company and assumptions pass with no warning at all ... *)
Lemma runSanityChecks_guide :
  runSanityChecks Guide.company Guide.assumptions
    = {| passed := true; warnings := [] |}.
Proof. vm_compute. reflexivity. Qed.

(** ... and a churn rate above 1 fails with a "high" warning. *)
Lemma runSanityChecks_bad_churn :
  let a := AssumptionInput.mk "Bad" {| ym_year := 2024; ym_month := 1 |} 12
             "PER_SEAT" (int 100) (int 10) (dec 5 100) (dec 3 2) (int 0) 0
             (int 80) (int 15000) (dec 1 10) in
  passed (runSanityChecks Guide.company a) = false ∧
  severity <$> warnings (runSanityChecks Guide.company a) = [high].
Proof. vm_compute. done. Qed.

(** ** The benchmark lookup *)

(** A stage that names neither a tier nor a member of [Object.prototype]
    falls back to the SEED tier. *)
Lemma getBenchmarks_fallback (stage : string) :
  stage ∉ ["PRE_SEED"; "SEED"; "SERIES_A"]%string →
  stage ∉ Object_prototype_keys →
  getBenchmarks stage = Tier benchmarks_SEED.
Proof.
  intros Hown Hproto. unfold getBenchmarks, benchmarks_get.
  assert (read_prop benchmarks stage = None) as ->.
  { unfold benchmarks, read_prop.
    repeat (match goal with
            | |- context [String.eqb ?k stage] =>
                destruct (String.eqb_spec k stage) as [<-|_];
                [exfalso; apply Hown; rewrite !elem_of_cons; auto|]
            end). done. }
  by rewrite bool_decide_eq_false_2.
Qed.

Lemma getBenchmarks_empty_and_later_stage :
  getBenchmarks "" = Tier benchmarks_SEED ∧
  getBenchmarks "SERIES_B" = Tier benchmarks_SEED.
Proof. split; reflexivity. Qed.

(** C10, evaluated at the stage "constructor": it is none of the three
    tier names, yet [benchmarks[stage]] finds the member inherited from
    [Object.prototype], which is truthy, so the SEED tier is not returned. *)
Theorem getBenchmarks_inherited_key_C10 :
  ("constructor"%string ∉ ["PRE_SEED"; "SEED"; "SERIES_A"]%string) ∧
  getBenchmarks "constructor" = ObjectPrototypeMember "constructor" ∧
  getBenchmarks "constructor" ≠ Tier benchmarks_SEED.
Proof.
  split; [|split]; [|reflexivity|discriminate].
  intros H. repeat (apply elem_of_cons in H as [H|H]; [discriminate|]).
  by apply elem_of_nil in H.
Qed.

(** ** Per-month overrides *)

Lemma findCustomOverride_entries (ov : option ScenarioOverrides.t) (m : Z) :
  findCustomOverride ov m
    = find (λ o, bool_decide (MonthlyOverride.monthOffset o = m))
           (overrideEntries ov).
Proof.
  unfold findCustomOverride, overrideEntries.
  destruct ov as [o|]; [|done]. simpl.
  by destruct (ScenarioOverrides.customMonthlyOverrides o).
Qed.

Lemma findCustomOverride_first (ov : option ScenarioOverrides.t) (m : Z)
    (e : MonthlyOverride.t) :
  firstEntryFor m (overrideEntries ov) e → findCustomOverride ov m = Some e.
Proof.
  rewrite findCustomOverride_entries.
  intros (pre & post & -> & Hpre & He).
  induction Hpre as [|o pre Ho _ IH]; simpl.
  - by rewrite bool_decide_eq_true_2.
  - by rewrite bool_decide_eq_false_2.
Qed.

Lemma findCustomOverride_none (ov : option ScenarioOverrides.t) (m : Z) :
  noEntryFor m (overrideEntries ov) → findCustomOverride ov m = None.
Proof.
  rewrite findCustomOverride_entries. unfold noEntryFor.
  induction 1 as [|o l Ho _ IH]; simpl; [done|].
  by rewrite bool_decide_eq_false_2.
Qed.

(** C3, as the code has it: [newCustomers] is the value of the first
    override entry for the month when that entry gives one; failing that it
    is [expectedNewCustomersPerMonth] times the growth multiplier, for a
    multiplier that is absent (times 1) or present and truthy;
    [churnedCustomers] is [previousActive * churnRate]; [activeCustomers] is
    [Math.max(0, previousActive + new - churned)] and is never below 0. *)
Theorem calculateActiveCustomers_C3 (previousActive : number)
    (a : AssumptionInput.t) (m : Z) (ov : option ScenarioOverrides.t) :
  let r := calculateActiveCustomers previousActive a m ov in
  let multiplier := ov ≫= ScenarioOverrides.customerGrowthMultiplier in
  (∀ e v, firstEntryFor m (overrideEntries ov) e →
          MonthlyOverride.newCustomers e = Some v →
          ActiveCustomers.newCustomers r = v) ∧
  ((noEntryFor m (overrideEntries ov) ∨
    ∃ e, firstEntryFor m (overrideEntries ov) e ∧
         MonthlyOverride.newCustomers e = None) →
   (∀ k, multiplier = Some k → truthy k = true) →
   ActiveCustomers.newCustomers r
     = (AssumptionInput.expectedNewCustomersPerMonth a
        * nullish multiplier (int 1))%num) ∧
  ActiveCustomers.churnedCustomers r
    = (previousActive * AssumptionInput.churnRate a)%num ∧
  ActiveCustomers.activeCustomers r
    = Math_max (int 0)
        (previousActive + ActiveCustomers.newCustomers r
         - ActiveCustomers.churnedCustomers r)%num ∧
  num_lt (ActiveCustomers.activeCustomers r) (int 0) = false.
Proof.
  intros r multiplier. subst r. unfold calculateActiveCustomers.
  cbn [ActiveCustomers.newCustomers ActiveCustomers.churnedCustomers
       ActiveCustomers.activeCustomers].
  repeat split.
  - intros e v He Hv. by rewrite (findCustomOverride_first _ _ _ He); simpl; rewrite Hv.
  - intros Hentry Hmult.
    assert (findCustomOverride ov m ≫= MonthlyOverride.newCustomers = None) as ->.
    { destruct Hentry as [Hno|(e & He & Hnone)].
      - by rewrite (findCustomOverride_none _ _ Hno).
      - by rewrite (findCustomOverride_first _ _ _ He). }
    fold multiplier. destruct multiplier as [k|] eqn:Hk; simpl.
    + by rewrite (Hmult k eq_refl).
    + by rewrite num_mul_1_r.
  - apply Math_max_0_not_negative.
Qed.

(** The theorem at work: an entry for month 3 giving 50 new customers, on
    top of a growth multiplier of 2. *)
Lemma calculateActiveCustomers_C3_witness :
  let ov := Some (ScenarioOverrides.mk (Some (int 2)) None None None None None
                    None None None
                    (Some [MonthlyOverride.mk 3 (Some (int 50)) None])) in
  ActiveCustomers.newCustomers
      (calculateActiveCustomers (int 100) Guide.assumptions 3 ov) = int 50 ∧
  ActiveCustomers.newCustomers
      (calculateActiveCustomers (int 100) Guide.assumptions 4 ov)
    = (int 10 * int 2)%num.
Proof.
  intros ov. split.
  - apply (proj1 (calculateActiveCustomers_C3 (int 100) Guide.assumptions 3 ov)
             (MonthlyOverride.mk 3 (Some (int 50)) None)).
    + exists [], []. repeat split; constructor.
    + reflexivity.
  - apply (proj1 (proj2 (calculateActiveCustomers_C3 (int 100) Guide.assumptions 4 ov))).
    + left. repeat constructor. discriminate.
    + intros k [= <-]. reflexivity.
Defined.

(** Only the first entry for a month is consulted: a later entry for
    month 3 that gives 50 new customers is not used, the month keeps the
    formula's 10. *)
Lemma calculateActiveCustomers_C3_counterexample :
  let entries := [ MonthlyOverride.mk 3 None (Some (int 0));
                   MonthlyOverride.mk 3 (Some (int 50)) None ] in
  let ov := Some (ScenarioOverrides.mk None None None None None None None None
                    None (Some entries)) in
  MonthlyOverride.mk 3 (Some (int 50)) None ∈ entries ∧
  ActiveCustomers.newCustomers
      (calculateActiveCustomers (int 100) Guide.assumptions 3 ov) = int 10 ∧
  int 10 ≠ int 50.
Proof.
  intros entries ov. split; [|split].
  - apply list_elem_of_further, list_elem_of_here.
  - reflexivity.
  - intros H. apply (bool_decide_eq_false_1 (int 10 = int 50)); [|exact H].
    vm_compute. reflexivity.
Qed.

(** A growth multiplier of 0 is falsy, so it is skipped like an absent
    one: the month still gets the 10 expected customers, not 10 * 0. *)
Lemma customerGrowthMultiplier_zero_is_skipped :
  let ov := Some (ScenarioOverrides.mk (Some (int 0)) None None None None None
                    None None None None) in
  ActiveCustomers.newCustomers
      (calculateActiveCustomers (int 100) Guide.assumptions 0 ov) = int 10 ∧
  (int 10 * int 0)%num = int 0.
Proof. split; [reflexivity | number_compute]. Qed.

(** C7, as the code has it: the first override entry for a month, when it
    gives [fixedCosts], sets that month's fixed costs to exactly that
    value, 0 included; a month with no entry, or whose first entry gives no
    [fixedCosts], uses [fixedCostsPerMonth]. *)
Theorem calculateCosts_fixedCosts_C7 (revenue : number) (m : Z)
    (hp : list HiringPlanItemInput.t) (a : AssumptionInput.t)
    (ov : option ScenarioOverrides.t) :
  let fixed := Costs.fixedCosts (calculateCosts revenue m hp a ov) in
  (∀ e v, firstEntryFor m (overrideEntries ov) e →
          MonthlyOverride.fixedCosts e = Some v → fixed = v) ∧
  (∀ e, firstEntryFor m (overrideEntries ov) e →
        MonthlyOverride.fixedCosts e = None →
        fixed = AssumptionInput.fixedCostsPerMonth a) ∧
  (noEntryFor m (overrideEntries ov) →
   fixed = AssumptionInput.fixedCostsPerMonth a).
Proof.
  intros fixed. subst fixed. unfold calculateCosts. cbn [Costs.fixedCosts].
  repeat split.
  - intros e v He Hv. by rewrite (findCustomOverride_first _ _ _ He); simpl; rewrite Hv.
  - intros e He Hv. by rewrite (findCustomOverride_first _ _ _ He); simpl; rewrite Hv.
  - intros Hno. by rewrite (findCustomOverride_none _ _ Hno).
Qed.

(** The specification's scenario: [customMonthlyOverrides =
    [{monthOffset: 3, fixedCosts: 0}]] makes the fixed costs of month 3
    exactly 0 and leaves month 4 at the base 15000. *)
Lemma calculateCosts_fixedCosts_C7_witness :
  let ov := Some (ScenarioOverrides.mk None None None None None None None None
                    None (Some [MonthlyOverride.mk 3 None (Some (int 0))])) in
  Costs.fixedCosts
      (calculateCosts (int 1050) 3 Guide.hiringPlan Guide.assumptions ov) = int 0 ∧
  Costs.fixedCosts
      (calculateCosts (int 1050) 4 Guide.hiringPlan Guide.assumptions ov)
    = int 15000.
Proof.
  intros ov. split.
  - apply (proj1 (calculateCosts_fixedCosts_C7 (int 1050) 3 Guide.hiringPlan
                    Guide.assumptions ov)
             (MonthlyOverride.mk 3 None (Some (int 0)))).
    + exists [], []. repeat split; constructor.
    + reflexivity.
  - apply (proj2 (proj2 (calculateCosts_fixedCosts_C7 (int 1050) 4
                           Guide.hiringPlan Guide.assumptions ov))).
    repeat constructor. discriminate.
Defined.

(** An entry for month 3 that gives [fixedCosts = 0] but stands behind
    another entry for month 3 does not set the month's fixed costs: they
    stay at the base 15000. *)
Lemma calculateCosts_fixedCosts_C7_counterexample :
  let entries := [ MonthlyOverride.mk 3 (Some (int 50)) None;
                   MonthlyOverride.mk 3 None (Some (int 0)) ] in
  let ov := Some (ScenarioOverrides.mk None None None None None None None None
                    None (Some entries)) in
  MonthlyOverride.mk 3 None (Some (int 0)) ∈ entries ∧
  Costs.fixedCosts
      (calculateCosts (int 1050) 3 Guide.hiringPlan Guide.assumptions ov)
    = int 15000 ∧
  int 15000 ≠ int 0.
Proof.
  intros entries ov. split; [|split].
  - apply list_elem_of_further, list_elem_of_here.
  - reflexivity.
  - intros H. apply (bool_decide_eq_false_1 (int 15000 = int 0)); [|exact H].
    vm_compute. reflexivity.
Qed.

(** In the records of [runScenario] the fixed costs of month [i] are those
    of [calculateCosts] on the effective assumptions and the raw overrides. *)
Lemma projection_fixedCosts (input : FinancialModelInput)
    (out : FinancialModelOutput) (p : MonthlyProjection.t) :
  runScenario input = Returns out → p ∈ projections out →
  MonthlyProjection.fixedCosts p
    = Costs.fixedCosts
        (calculateCosts (MonthlyProjection.revenue p) (MonthlyProjection.monthIndex p)
           (hiringPlan input)
           (applyScenarioOverrides (assumptions input) (scenarioOverrides input))
           (scenarioOverrides input)).
Proof.
  intros Hrun Hp. rewrite (runScenario_projections _ _ Hrun) in Hp.
  by apply projectMonths_elem_of in Hp as (k & st & _ & ->).
Qed.

(** ** Empty overrides *)

Lemma applyScenarioOverrides_empty (a : AssumptionInput.t) :
  num_le (int 0) (AssumptionInput.churnRate a) = true →
  num_le (AssumptionInput.churnRate a) (int 1) = true →
  applyScenarioOverrides a (Some ScenarioOverrides.empty) = a.
Proof.
  intros H0 H1. destruct a as [? ? ? ? arpu ? expansion churn ? ? margin fixed variable].
  cbn [AssumptionInput.churnRate] in H0, H1.
  unfold applyScenarioOverrides, nullish, ScenarioOverrides.empty.
  cbn [AssumptionInput.name AssumptionInput.startMonth AssumptionInput.months
       AssumptionInput.pricingModel AssumptionInput.arpu
       AssumptionInput.expectedNewCustomersPerMonth
       AssumptionInput.expansionRevenueRate AssumptionInput.churnRate
       AssumptionInput.cac AssumptionInput.paybackPeriodMonths
       AssumptionInput.grossMarginPercent AssumptionInput.fixedCostsPerMonth
       AssumptionInput.variableCostPercentOfRevenue
       ScenarioOverrides.arpuMultiplier ScenarioOverrides.churnRateAdjustment
       ScenarioOverrides.expansionRevenueRateAdjustment
       ScenarioOverrides.grossMarginAdjustment
       ScenarioOverrides.fixedCostsMultiplier
       ScenarioOverrides.variableCostMultiplier default].
  rewrite !num_mul_1_r, !num_add_0_r. by rewrite clamp_unit_interval.
Qed.

(** C5, as the code has it: for a churn rate within [0, 1], running with
    the empty overrides object gives the same outcome as running with the
    overrides omitted. *)
Theorem runScenario_empty_overrides_C5 (c : CompanyInput.t)
    (a : AssumptionInput.t) (hp : list HiringPlanItemInput.t) :
  num_le (int 0) (AssumptionInput.churnRate a) = true →
  num_le (AssumptionInput.churnRate a) (int 1) = true →
  runScenario (Build_FinancialModelInput c a hp (Some ScenarioOverrides.empty))
    = runScenario (Build_FinancialModelInput c a hp None).
Proof.
  intros H0 H1. unfold runScenario.
  cbn [company assumptions hiringPlan scenarioOverrides].
  rewrite (applyScenarioOverrides_empty a H0 H1).
  cbn [applyScenarioOverrides].
  assert (∀ n i st,
            projectMonths a a hp (Some ScenarioOverrides.empty) n i st
            = projectMonths a a hp None n i st) as Hsame.
  { induction n as [|n IH]; intros i st; [done|].
    cbn [projectMonths]. rewrite IH. reflexivity. }
  by rewrite Hsame.
Qed.

Lemma runScenario_empty_overrides_C5_witness :
  runScenario
      (Build_FinancialModelInput Guide.company Guide.assumptions
         Guide.hiringPlan (Some ScenarioOverrides.empty))
    = runScenario Guide.input.
Proof.
  apply runScenario_empty_overrides_C5; reflexivity.
Defined.

(** A churn rate of 1.5 is clamped to 1 under the empty overrides object
    and used as it is when the overrides are omitted: from month 1 on the
    two runs differ. *)
Lemma runScenario_empty_overrides_C5_counterexample :
  let a := AssumptionInput.mk "Base Case" {| ym_year := 2024; ym_month := 1 |} 2
             "PER_SEAT" (int 100) (int 10) (dec 5 100) (dec 3 2) (int 500) 12
             (int 80) (int 15000) (dec 1 10) in
  let withEmpty := Build_FinancialModelInput Guide.company a Guide.hiringPlan
                     (Some ScenarioOverrides.empty) in
  let omitted := Build_FinancialModelInput Guide.company a Guide.hiringPlan None in
  ∃ out1 out2 p1 p2,
    runScenario withEmpty = Returns out1 ∧ runScenario omitted = Returns out2 ∧
    projections out1 !! 1%nat = Some p1 ∧ projections out2 !! 1%nat = Some p2 ∧
    MonthlyProjection.churnedCustomers p1 = int 10 ∧
    MonthlyProjection.churnedCustomers p2 = int 15 ∧
    runScenario withEmpty ≠ runScenario omitted.
Proof.
  intros a withEmpty omitted.
  destruct (runScenario_returns withEmpty) as (out1 & Hout1 & Hp1); [done|].
  destruct (runScenario_returns omitted) as (out2 & Hout2 & Hp2); [done|].
  assert (∃ p1, projections out1 !! 1%nat = Some p1 ∧
                MonthlyProjection.churnedCustomers p1 = int 10) as (p1 & Hl1 & Hc1).
  { rewrite Hp1. eexists. split; [reflexivity|]. number_compute. }
  assert (∃ p2, projections out2 !! 1%nat = Some p2 ∧
                MonthlyProjection.churnedCustomers p2 = int 15) as (p2 & Hl2 & Hc2).
  { rewrite Hp2. eexists. split; [reflexivity|]. number_compute. }
  exists out1, out2, p1, p2.
  split; [exact Hout1|]. split; [exact Hout2|]. split; [exact Hl1|].
  split; [exact Hl2|]. split; [exact Hc1|]. split; [exact Hc2|].
  rewrite Hout1, Hout2. intros [= Heq]. rewrite Heq, Hl2 in Hl1.
  injection Hl1 as <-. rewrite Hc2 in Hc1.
  apply (bool_decide_eq_false_1 (int 15 = int 10)); [|exact Hc1].
  vm_compute. reflexivity.
Qed.

(** ** Lifetime value in the summary *)

Lemma fold_left_sum_map {A} (f : A → number) (l : list A) (z : number) :
  fold_left (λ sum x, (sum + f x)%num) l z = fold_left num_add (f <$> l) z.
Proof. revert z. induction l as [|x l IH]; intros z; simpl; [done|]. apply IH. Qed.

Lemma generateSummary_ltv (ps : list MonthlyProjection.t) (a : AssumptionInput.t)
    (s : ProjectionSummary.t) :
  generateSummary ps a = Returns s →
  ProjectionSummary.ltv s
    = if num_gt (AssumptionInput.churnRate a) (int 0)
      then Some (meanMRR ps / AssumptionInput.churnRate a)%num
      else None.
Proof.
  destruct ps as [|p ps']; [done|]. unfold generateSummary.
  intros [= <-]. cbn [ProjectionSummary.ltv]. unfold meanMRR.
  by rewrite fold_left_sum_map.
Qed.

Lemma runScenario_summary (input : FinancialModelInput)
    (out : FinancialModelOutput) :
  runScenario input = Returns out →
  generateSummary (projections out) (assumptions input) = Returns (summary out).
Proof.
  unfold runScenario.
  destruct (generateSummary _ _) as [s|msg] eqn:Hs; [|done].
  intros [= <-]. exact Hs.
Qed.

(** The summary's [ltv] is computed from the base assumptions. *)
Lemma runScenario_ltv (input : FinancialModelInput) (out : FinancialModelOutput) :
  runScenario input = Returns out →
  ProjectionSummary.ltv (summary out)
    = if num_gt (AssumptionInput.churnRate (assumptions input)) (int 0)
      then Some (meanMRR (projections out)
                 / AssumptionInput.churnRate (assumptions input))%num
      else None.
Proof. intros H. by apply generateSummary_ltv, runScenario_summary. Qed.

(** With a churn rate of zero the summary's [ltv] is null. *)
Lemma summary_ltv_zero_churn :
  let a := AssumptionInput.mk "Base Case" {| ym_year := 2024; ym_month := 1 |} 24
             "PER_SEAT" (int 100) (int 10) (dec 5 100) (int 0) (int 500) 12
             (int 80) (int 15000) (dec 1 10) in
  ∃ out,
    runScenario (Build_FinancialModelInput Guide.company a Guide.hiringPlan None)
      = Returns out ∧
    ProjectionSummary.ltv (summary out) = None.
Proof.
  intros a.
  destruct (runScenario_returns
              (Build_FinancialModelInput Guide.company a Guide.hiringPlan None))
    as (out & Hout & _); [done|].
  exists out. split; [exact Hout|]. by rewrite (runScenario_ltv _ _ Hout).
Qed.

(** C6: for a base churn rate within [0, 1], the summary's [ltv] is null
    exactly when the base churn rate is zero; otherwise it is the mean MRR
    of the projected months divided by the base churn rate, whatever the
    overrides (a [churnRateAdjustment] among them) did to the churn rate
    used in the simulation. *)
Theorem summary_ltv_C6 (input : FinancialModelInput) :
  1 ≤ AssumptionInput.months (assumptions input) →
  num_le (int 0) (AssumptionInput.churnRate (assumptions input)) = true →
  num_le (AssumptionInput.churnRate (assumptions input)) (int 1) = true →
  ∃ out,
    runScenario input = Returns out ∧
    (ProjectionSummary.ltv (summary out) = None
       ↔ AssumptionInput.churnRate (assumptions input) = int 0) ∧
    (AssumptionInput.churnRate (assumptions input) ≠ int 0 →
     ProjectionSummary.ltv (summary out)
       = Some (meanMRR (projections out)
               / AssumptionInput.churnRate (assumptions input))%num).
Proof.
  intros Hm H0 H1.
  destruct (runScenario_returns input Hm) as (out & Hout & _).
  exists out. split; [done|].
  rewrite (runScenario_ltv _ _ Hout).
  destruct (num_between_Fin _ _ _ H0 H1) as (q & -> & Hlo & _).
  rewrite Z2Qc_inj_0 in Hlo. rewrite Fin_int_0.
  unfold num_gt, int. rewrite Z2Qc_inj_0. cbn [num_lt].
  case_bool_decide as Hq.
  - split; [|done]. split; [done|]. intros ->. by destruct (Qclt_not_eq _ _ Hq).
  - assert (q = 0%Qc) as ->
      by (apply Qcle_antisym; [by apply Qcnot_lt_le | done]).
    split; [done|]. intros Hne. by destruct Hne.
Qed.

(** The guide's scenario with the churn rate raised by a
    [churnRateAdjustment] of 0.05: the summary still divides by the base
    rate 0.05. *)
Lemma summary_ltv_C6_witness :
  let ov := Some (ScenarioOverrides.mk None None (Some (dec 5 100)) None None
                    None None None None None) in
  ∃ out,
    runScenario (Build_FinancialModelInput Guide.company Guide.assumptions
                   Guide.hiringPlan ov) = Returns out ∧
    ProjectionSummary.ltv (summary out)
      = Some (meanMRR (projections out) / dec 5 100)%num.
Proof.
  intros ov.
  destruct (summary_ltv_C6
              (Build_FinancialModelInput Guide.company Guide.assumptions
                 Guide.hiringPlan ov))
    as (out & Hout & _ & Hltv); [done|reflexivity|reflexivity|].
  exists out. split; [exact Hout|]. apply Hltv.
  intros H. apply (bool_decide_eq_false_1 (dec 5 100 = int 0)); [|exact H].
  vm_compute. reflexivity.
Defined.

(** * Further properties of the engine *)

(** ** When [runScenario] throws *)


(** ** How the loop threads its state *)

Section Threading.
Variable assumptions effectiveAssumptions : AssumptionInput.t.
Variable hiringPlan : list HiringPlanItemInput.t.
Variable scenarioOverrides : option ScenarioOverrides.t.

Local Abbreviation step :=
  (projectMonth assumptions effectiveAssumptions hiringPlan scenarioOverrides).
Local Abbreviation run :=
  (projectMonths assumptions effectiveAssumptions hiringPlan scenarioOverrides).

Lemma projectMonths_lookup_0 (n : nat) (i : Z) (st : LoopState)
    (p : MonthlyProjection.t) :
  run n i st !! 0%nat = Some p → p = step i st.
Proof. destruct n; simpl; [done|]. by intros [= <-]. Qed.

(** The record after [p] is the loop body run on the state [p] leaves. *)
Lemma projectMonths_lookup_S (n : nat) (i : Z) (st : LoopState) (k : nat)
    (p q : MonthlyProjection.t) :
  run n i st !! k = Some p → run n i st !! S k = Some q →
  q = step (i + Z.of_nat k + 1) (advance p).
Proof.
  revert i st k. induction n as [|n IH]; intros i st k; [done|].
  cbn [projectMonths]. destruct k as [|k]; simpl.
  - intros [= <-] Hq. apply projectMonths_lookup_0 in Hq. by rewrite Z.add_0_r.
  - intros Hp Hq. rewrite (IH _ _ _ Hp Hq). f_equal. lia.
Qed.
End Threading.

(** X2: the cash of a run is threaded through its records: month 0 starts
    from the company's starting cash, every later month starts from the
    ending cash of the month before, and in every month
    [netBurn = totalOpex - revenue] and [endingCash = startingCash - netBurn]. *)
Theorem runScenario_cash_thread (input : FinancialModelInput)
    (out : FinancialModelOutput) :
  runScenario input = Returns out →
  (∀ p, projections out !! 0%nat = Some p →
        MonthlyProjection.startingCash p = CompanyInput.startingCash (company input)) ∧
  (∀ i p q, projections out !! i = Some p → projections out !! S i = Some q →
        MonthlyProjection.startingCash q = MonthlyProjection.endingCash p) ∧
  (∀ p, p ∈ projections out →
        MonthlyProjection.netBurn p
          = (MonthlyProjection.totalOpex p - MonthlyProjection.revenue p)%num ∧
        MonthlyProjection.endingCash p
          = (MonthlyProjection.startingCash p - MonthlyProjection.netBurn p)%num).
Proof.
  intros Hrun. rewrite (runScenario_projections _ _ Hrun). repeat split.
  - intros p Hp. by rewrite (projectMonths_lookup_0 _ _ _ _ _ _ _ _ Hp).
  - intros i p q Hp Hq. by rewrite (projectMonths_lookup_S _ _ _ _ _ _ _ _ _ _ Hp Hq).
  - by apply projectMonths_elem_of in H as (k & st & _ & ->).
  - by apply projectMonths_elem_of in H as (k & st & _ & ->).
Qed.

Lemma runScenario_cash_thread_witness :
  ∃ out p q,
    runScenario Guide.input = Returns out ∧
    projections out !! 0%nat = Some p ∧ projections out !! 1%nat = Some q ∧
    MonthlyProjection.startingCash p = int 500000 ∧
    MonthlyProjection.startingCash q = MonthlyProjection.endingCash p.
Proof.
  destruct (runScenario_returns Guide.input) as (out & Hout & Hp); [done|].
  destruct (runScenario_cash_thread Guide.input out Hout) as (H0 & HS & _).
  assert (∃ p, projections out !! 0%nat = Some p) as [p Hlp]
    by (rewrite Hp; eexists; reflexivity).
  assert (∃ q, projections out !! 1%nat = Some q) as [q Hlq]
    by (rewrite Hp; eexists; reflexivity).
  exists out, p, q. split; [exact Hout|]. split; [exact Hlp|]. split; [exact Hlq|].
  split; [exact (H0 p Hlp) | exact (HS 0%nat p q Hlp Hlq)].
Defined.

(** X3: whatever the inputs (a churn rate above 1, a negative override of
    the new customers), no record of a run has [activeCustomers < 0]. *)
Theorem runScenario_activeCustomers_not_negative (input : FinancialModelInput)
    (out : FinancialModelOutput) (p : MonthlyProjection.t) :
  runScenario input = Returns out → p ∈ projections out →
  num_lt (MonthlyProjection.activeCustomers p) (int 0) = false.
Proof.
  intros Hrun Hp. rewrite (runScenario_projections _ _ Hrun) in Hp.
  apply projectMonths_elem_of in Hp as (k & st & _ & ->).
  apply Math_max_0_not_negative.
Qed.

(** A run whose churn rate is 3 and whose month 1 is overridden to lose
    500 customers: its record still does not go below 0. *)
Lemma runScenario_activeCustomers_not_negative_witness :
  let a := AssumptionInput.mk "Base Case" {| ym_year := 2024; ym_month := 1 |} 2
             "PER_SEAT" (int 100) (int 10) (dec 5 100) (int 3) (int 500) 12
             (int 80) (int 15000) (dec 1 10) in
  let ov := ScenarioOverrides.mk None None None None None None None None None
              (Some [MonthlyOverride.mk 1 (Some (int (-500))) None]) in
  ∃ out p,
    runScenario (Build_FinancialModelInput Guide.company a Guide.hiringPlan (Some ov))
      = Returns out ∧
    projections out !! 1%nat = Some p ∧
    num_lt (MonthlyProjection.activeCustomers p) (int 0) = false.
Proof.
  intros a ov.
  destruct (runScenario_returns
              (Build_FinancialModelInput Guide.company a Guide.hiringPlan (Some ov)))
    as (out & Hout & Hp); [done|].
  assert (∃ p, projections out !! 1%nat = Some p) as [p Hlp]
    by (rewrite Hp; eexists; reflexivity).
  exists out, p. split; [exact Hout|]. split; [exact Hlp|].
  apply (runScenario_activeCustomers_not_negative _ out p Hout).
  by apply list_elem_of_lookup_2 in Hlp.
Defined.

(** ** Headcount and the hiring delay *)

Lemma calculateHeadcount_cons (m : Z) (item : HiringPlanItemInput.t)
    (hp : list HiringPlanItemInput.t) (ov : option ScenarioOverrides.t) :
  calculateHeadcount m (item :: hp) ov
    = (if decide (HiringPlanItemInput.monthOffset item
                  ≤ m - nullish (ov ≫= ScenarioOverrides.hiringDelayMonths) 0)
       then HiringPlanItemInput.count item else 0)
      + calculateHeadcount m hp ov.
Proof.
  unfold calculateHeadcount, activeHires.
  assert (∀ l z, fold_left (λ sum it, sum + HiringPlanItemInput.count it) l z
                 = z + fold_left (λ sum it, sum + HiringPlanItemInput.count it) l 0)
    as Hacc.
  { induction l as [|x l IH]; intros z; cbn [fold_left]; [lia|].
    rewrite (IH (z + HiringPlanItemInput.count x)),
            (IH (0 + HiringPlanItemInput.count x)). lia. }
  rewrite filter_cons. case_decide; simpl; [|done].
  by rewrite Hacc.
Qed.

Lemma calculateHeadcount_mono (m m' : Z) (hp : list HiringPlanItemInput.t)
    (ov : option ScenarioOverrides.t) :
  Forall (λ item, 0 ≤ HiringPlanItemInput.count item) hp → m ≤ m' →
  calculateHeadcount m hp ov ≤ calculateHeadcount m' hp ov.
Proof.
  intros Hcount Hm. induction Hcount as [|item hp Hc _ IH]; [done|].
  rewrite !calculateHeadcount_cons. repeat case_decide; lia.
Qed.

(** X4: when no hiring-plan item has a negative [count], the headcount of
    the records never decreases from one month to a later one, whatever
    the hiring delay. *)
Theorem runScenario_headcount_non_decreasing (input : FinancialModelInput)
    (out : FinancialModelOutput) (i j : nat) (p q : MonthlyProjection.t) :
  Forall (λ item, 0 ≤ HiringPlanItemInput.count item) (hiringPlan input) →
  runScenario input = Returns out →
  projections out !! i = Some p → projections out !! j = Some q → (i ≤ j)%nat →
  MonthlyProjection.headcount p ≤ MonthlyProjection.headcount q.
Proof.
  intros Hcount Hrun Hp Hq Hij.
  rewrite (runScenario_projections _ _ Hrun) in Hp, Hq.
  apply projectMonths_lookup in Hp as [st1 ->].
  apply projectMonths_lookup in Hq as [st2 ->].
  cbn [projectMonth MonthlyProjection.headcount].
  apply calculateHeadcount_mono; [done|lia].
Qed.

Lemma runScenario_headcount_non_decreasing_witness :
  ∃ out p q,
    runScenario Guide.input = Returns out ∧
    projections out !! 5%nat = Some p ∧ projections out !! 6%nat = Some q ∧
    MonthlyProjection.headcount p ≤ MonthlyProjection.headcount q.
Proof.
  destruct (runScenario_returns Guide.input) as (out & Hout & Hp); [done|].
  assert (∃ p, projections out !! 5%nat = Some p) as [p Hlp]
    by (rewrite Hp; eexists; reflexivity).
  assert (∃ q, projections out !! 6%nat = Some q) as [q Hlq]
    by (rewrite Hp; eexists; reflexivity).
  exists out, p, q. split; [exact Hout|]. split; [exact Hlp|]. split; [exact Hlq|].
  apply (runScenario_headcount_non_decreasing Guide.input out 5 6 p q);
    [|exact Hout|exact Hlp|exact Hlq|lia].
  repeat constructor; discriminate.
Defined.

(** A negative [count] (which the type allows) breaks the monotonicity:
    the precondition of X4 is needed. *)
Lemma calculateHeadcount_negative_count :
  let hp := [ HiringPlanItemInput.mk 0 "Engineer" 3 (int 10000) "ENGINEERING";
              HiringPlanItemInput.mk 1 "Leaver" (-2) (int 10000) "ENGINEERING" ] in
  calculateHeadcount 0 hp None = 3 ∧ calculateHeadcount 1 hp None = 1.
Proof. split; reflexivity. Qed.

Lemma activeHires_shift (hp : list HiringPlanItemInput.t) (m d : Z) :
  activeHires hp (m + d) d = activeHires hp m 0.
Proof.
  unfold activeHires. induction hp as [|item hp IH]; [done|].
  rewrite !filter_cons, IH. repeat case_decide; (done || lia).
Qed.

Lemma activeHires_before (hp : list HiringPlanItemInput.t) (m d : Z) :
  Forall (λ item, 0 ≤ HiringPlanItemInput.monthOffset item) hp → m < d →
  activeHires hp m d = [].
Proof.
  intros Hoff Hm. unfold activeHires.
  induction Hoff as [|item hp Ho _ IH]; [done|].
  rewrite filter_cons, IH. case_decide; (done || lia).
Qed.

(** X5: a hiring delay of [d >= 0] months shifts headcount and salary
    costs by [d] months: record [i + d] of the delayed run has the headcount
    and the salary costs of record [i] of the run without the delay; and
    when no item has a negative [monthOffset], the months before [d] have
    no headcount and no salary costs. *)
Theorem runScenario_hiring_delay_shift (c : CompanyInput.t)
    (a : AssumptionInput.t) (hp : list HiringPlanItemInput.t)
    (ov : ScenarioOverrides.t) (d : Z) (delayed undelayed : FinancialModelOutput) :
  0 ≤ d →
  runScenario (Build_FinancialModelInput c a hp (Some (setHiringDelay ov (Some d))))
    = Returns delayed →
  runScenario (Build_FinancialModelInput c a hp (Some (setHiringDelay ov None)))
    = Returns undelayed →
  (∀ (i : nat) p q,
     projections delayed !! (i + Z.to_nat d)%nat = Some p →
     projections undelayed !! i = Some q →
     MonthlyProjection.headcount p = MonthlyProjection.headcount q ∧
     MonthlyProjection.salaryCosts p = MonthlyProjection.salaryCosts q) ∧
  (Forall (λ item, 0 ≤ HiringPlanItemInput.monthOffset item) hp →
   ∀ (k : nat) p,
     projections delayed !! k = Some p → Z.of_nat k < d →
     MonthlyProjection.headcount p = 0 ∧
     MonthlyProjection.salaryCosts p = int 0).
Proof.
  intros Hd Hrun1 Hrun2.
  rewrite (runScenario_projections _ _ Hrun1), (runScenario_projections _ _ Hrun2).
  cbn [company assumptions hiringPlan scenarioOverrides]. split.
  - intros i p q Hp Hq.
    apply projectMonths_lookup in Hp as [st1 ->].
    apply projectMonths_lookup in Hq as [st2 ->].
    unfold projectMonth, calculateCosts, calculateHeadcount.
    cbn [MonthlyProjection.headcount MonthlyProjection.salaryCosts Costs.salaryCosts
         mbind option_bind setHiringDelay ScenarioOverrides.hiringDelayMonths
         ScenarioOverrides.salaryMultiplier nullish default].
    replace (0 + Z.of_nat (i + Z.to_nat d)) with (0 + Z.of_nat i + d) by lia.
    by rewrite activeHires_shift.
  - intros Hoff k p Hp Hk.
    apply projectMonths_lookup in Hp as [st1 ->].
    unfold projectMonth, calculateCosts, calculateHeadcount.
    cbn [MonthlyProjection.headcount MonthlyProjection.salaryCosts Costs.salaryCosts
         mbind option_bind setHiringDelay ScenarioOverrides.hiringDelayMonths
         ScenarioOverrides.salaryMultiplier nullish default].
    by rewrite (activeHires_before hp _ d Hoff) by lia.
Qed.

(** The guide's plan delayed by two months: month 2 of the delayed run has
    the headcount of month 0 of the run without delay, and month 1 has none. *)
Lemma runScenario_hiring_delay_shift_witness :
  ∃ delayed undelayed p q r,
    runScenario (Build_FinancialModelInput Guide.company Guide.assumptions
                   Guide.hiringPlan
                   (Some (setHiringDelay ScenarioOverrides.empty (Some 2))))
      = Returns delayed ∧
    runScenario (Build_FinancialModelInput Guide.company Guide.assumptions
                   Guide.hiringPlan
                   (Some (setHiringDelay ScenarioOverrides.empty None)))
      = Returns undelayed ∧
    projections delayed !! 2%nat = Some p ∧ projections undelayed !! 0%nat = Some q ∧
    projections delayed !! 1%nat = Some r ∧
    MonthlyProjection.headcount p = MonthlyProjection.headcount q ∧
    MonthlyProjection.headcount r = 0.
Proof.
  destruct (runScenario_returns
              (Build_FinancialModelInput Guide.company Guide.assumptions
                 Guide.hiringPlan
                 (Some (setHiringDelay ScenarioOverrides.empty (Some 2)))))
    as (delayed & Hd & Hpd); [done|].
  destruct (runScenario_returns
              (Build_FinancialModelInput Guide.company Guide.assumptions
                 Guide.hiringPlan
                 (Some (setHiringDelay ScenarioOverrides.empty None))))
    as (undelayed & Hu & Hpu); [done|].
  destruct (runScenario_hiring_delay_shift Guide.company Guide.assumptions
              Guide.hiringPlan ScenarioOverrides.empty 2 delayed undelayed
              ltac:(lia) Hd Hu) as [Hshift Hbefore].
  assert (∃ p, projections delayed !! 2%nat = Some p) as [p Hlp]
    by (rewrite Hpd; eexists; reflexivity).
  assert (∃ q, projections undelayed !! 0%nat = Some q) as [q Hlq]
    by (rewrite Hpu; eexists; reflexivity).
  assert (∃ r, projections delayed !! 1%nat = Some r) as [r Hlr]
    by (rewrite Hpd; eexists; reflexivity).
  exists delayed, undelayed, p, q, r.
  split; [exact Hd|]. split; [exact Hu|]. split; [exact Hlp|].
  split; [exact Hlq|]. split; [exact Hlr|]. split.
  - exact (proj1 (Hshift 0%nat p q Hlp Hlq)).
  - apply (Hbefore ltac:(repeat constructor; discriminate) 1%nat r Hlr). lia.
Defined.

(** ** Finite inputs give finite records *)

Lemma finite_Fin (x : number) : finite x ↔ ∃ q, x = Fin q.
Proof. destruct x; simpl; split; try done; eauto; by intros [? ?]. Qed.

Lemma finite_int (n : Z) : finite (int n).
Proof. done. Qed.

Lemma finite_add (x y : number) : finite x → finite y → finite (x + y)%num.
Proof. by destruct x, y. Qed.

Lemma finite_sub (x y : number) : finite x → finite y → finite (x - y)%num.
Proof. by destruct x, y. Qed.

Lemma finite_mul (x y : number) : finite x → finite y → finite (x * y)%num.
Proof. by destruct x, y. Qed.

Lemma finite_Math_max (x y : number) : finite x → finite y → finite (Math_max x y).
Proof. destruct x, y; try done. intros _ _. unfold Math_max. by destruct (num_lt _ _). Qed.

Lemma finite_Math_min (x y : number) : finite x → finite y → finite (Math_min x y).
Proof. destruct x, y; try done. intros _ _. unfold Math_min. by destruct (num_lt _ _). Qed.

(** A division is finite when the divisor is finite and not zero. *)
Lemma finite_div (x y : number) :
  finite x → finite y → y ≠ int 0 → finite (x / y)%num.
Proof.
  destruct x as [a| | |], y as [b| | |]; try done. intros _ _ Hb.
  unfold num_div. destruct (decide (b = 0%Qc)) as [->|]; [|done].
  destruct Hb. unfold int. by rewrite Z2Qc_inj_0.
Qed.

Lemma num_le_0_false_ne (y : number) : num_le y (int 0) = false → y ≠ int 0.
Proof.
  intros Hle ->. discriminate Hle.
Qed.

Lemma num_gt_0_ne (y : number) : num_gt y (int 0) = true → y ≠ int 0.
Proof.
  intros Hgt ->. discriminate Hgt.
Qed.

Lemma int_100_ne_0 : int 100 ≠ int 0.
Proof. intros H. by apply (bool_decide_eq_false_1 (int 100 = int 0)). Qed.

Lemma finiteOpt_nullish (x : option number) (d : number) :
  finiteOpt x → finite d → finite (nullish x d).
Proof. by destruct x. Qed.

Create HintDb finite.
#[local] Hint Resolve finite_int finite_add finite_sub finite_mul finite_Math_max
  finite_Math_min finiteOpt_nullish : finite.

Lemma applyScenarioOverrides_finite (a : AssumptionInput.t)
    (ov : option ScenarioOverrides.t) :
  finiteAssumptions a → finiteOverrides ov →
  finiteAssumptions (applyScenarioOverrides a ov).
Proof.
  intros Ha Hov. destruct ov as [o|]; [|done].
  destruct Ha as (? & ? & ? & ? & ? & ? & ?).
  destruct Hov as (? & ? & ? & ? & ? & ? & ? & ? & ?).
  unfold finiteAssumptions, applyScenarioOverrides.
  cbn [AssumptionInput.arpu AssumptionInput.expectedNewCustomersPerMonth
       AssumptionInput.expansionRevenueRate AssumptionInput.churnRate
       AssumptionInput.grossMarginPercent AssumptionInput.fixedCostsPerMonth
       AssumptionInput.variableCostPercentOfRevenue].
  repeat split; auto 10 with finite.
Qed.

(** The entry that the lookup finds is an entry of the list. *)
Lemma findCustomOverride_elem_of (ov : ScenarioOverrides.t) (m : Z)
    (e : MonthlyOverride.t) :
  findCustomOverride (Some ov) m = Some e →
  e ∈ default [] (ScenarioOverrides.customMonthlyOverrides ov).
Proof.
  unfold findCustomOverride. simpl.
  destruct (ScenarioOverrides.customMonthlyOverrides ov) as [l|]; [|done]. simpl.
  intros [Hin _]%find_some. by apply list_elem_of_In.
Qed.

Lemma customOverride_finite (ov : option ScenarioOverrides.t) (m : Z) :
  finiteOverrides ov →
  finiteOpt (findCustomOverride ov m ≫= MonthlyOverride.newCustomers) ∧
  finiteOpt (findCustomOverride ov m ≫= MonthlyOverride.fixedCosts).
Proof.
  destruct ov as [o|]; [|done]. intros (_ & _ & _ & _ & _ & _ & _ & _ & Hall).
  destruct (findCustomOverride (Some o) m) as [e|] eqn:He; [|done].
  apply findCustomOverride_elem_of in He.
  rewrite Forall_forall in Hall. exact (Hall e He).
Qed.

Lemma calculateActiveCustomers_finite (prev : number) (a : AssumptionInput.t)
    (m : Z) (ov : option ScenarioOverrides.t) :
  finite prev → finiteAssumptions a → finiteOverrides ov →
  let r := calculateActiveCustomers prev a m ov in
  finite (ActiveCustomers.newCustomers r) ∧
  finite (ActiveCustomers.churnedCustomers r) ∧
  finite (ActiveCustomers.activeCustomers r).
Proof.
  intros Hprev (? & Hnew & ? & Hchurn & ? & ? & ?) Hov r.
  assert (finite (ActiveCustomers.newCustomers r)) as Hn.
  { subst r. unfold calculateActiveCustomers. cbn [ActiveCustomers.newCustomers].
    pose proof (proj1 (customOverride_finite ov m Hov)) as Hc.
    destruct (findCustomOverride ov m ≫= MonthlyOverride.newCustomers) as [v|];
      [exact Hc|].
    destruct ov as [o|]; [|exact Hnew]. simpl.
    destruct Hov as (Hmult & _).
    destruct (ScenarioOverrides.customerGrowthMultiplier o) as [k|]; [|exact Hnew].
    destruct (truthy k); auto with finite. }
  split; [exact Hn|]. split.
  - subst r. cbn. auto with finite.
  - subst r. unfold calculateActiveCustomers in *.
    cbn [ActiveCustomers.newCustomers ActiveCustomers.activeCustomers] in *.
    auto 10 with finite.
Qed.

Lemma calculateRevenue_finite (active : number) (a : AssumptionInput.t) :
  finite active → finiteAssumptions a →
  finite (Revenue.mrr (calculateRevenue active a)) ∧
  finite (Revenue.revenue (calculateRevenue active a)).
Proof.
  intros Hact (? & ? & ? & ? & ? & ? & ?). unfold calculateRevenue.
  cbn [Revenue.mrr Revenue.revenue]. split; auto 10 with finite.
Qed.

Lemma salaryCosts_finite (l : list HiringPlanItemInput.t) (mult z : number) :
  Forall (λ item, finite (HiringPlanItemInput.monthlySalaryPerHead item)) l →
  finite mult → finite z →
  finite (fold_left
            (λ sum item,
               (sum + int (HiringPlanItemInput.count item)
                      * HiringPlanItemInput.monthlySalaryPerHead item * mult)%num)
            l z).
Proof.
  intros Hall Hm. revert z. induction Hall as [|item l Hi _ IH]; intros z Hz; [done|].
  cbn [fold_left]. apply IH. auto 10 with finite.
Qed.

Lemma calculateCosts_finite (revenue : number) (m : Z)
    (hp : list HiringPlanItemInput.t) (a : AssumptionInput.t)
    (ov : option ScenarioOverrides.t) :
  finite revenue → finiteAssumptions a → finiteOverrides ov →
  Forall (λ item, finite (HiringPlanItemInput.monthlySalaryPerHead item)) hp →
  let c := calculateCosts revenue m hp a ov in
  finite (Costs.cogs c) ∧ finite (Costs.grossProfit c) ∧
  finite (Costs.salaryCosts c) ∧ finite (Costs.fixedCosts c) ∧
  finite (Costs.variableCosts c) ∧ finite (Costs.totalOpex c).
Proof.
  intros Hrev (? & ? & ? & ? & Hgm & Hfixed & ?) Hov Hhp c. subst c.
  unfold calculateCosts.
  cbn [Costs.cogs Costs.grossProfit Costs.salaryCosts Costs.fixedCosts
       Costs.variableCosts Costs.totalOpex].
  assert (finite (AssumptionInput.grossMarginPercent a / int 100)%num) as Hd
    by (apply finite_div; [done|done|apply int_100_ne_0]).
  assert (finite (nullish (findCustomOverride ov m ≫= MonthlyOverride.fixedCosts)
                          (AssumptionInput.fixedCostsPerMonth a))) as Hf
    by (apply finiteOpt_nullish; [apply (customOverride_finite ov m Hov)|done]).
  assert (finite (nullish (ov ≫= ScenarioOverrides.salaryMultiplier) (int 1))) as Hmult.
  { apply finiteOpt_nullish; [|done]. destruct ov as [o|]; [|done].
    by destruct Hov as (_ & _ & _ & _ & _ & _ & _ & ? & _). }
  assert (finite
            (fold_left
               (λ sum item,
                  (sum + int (HiringPlanItemInput.count item)
                         * HiringPlanItemInput.monthlySalaryPerHead item
                         * nullish (ov ≫= ScenarioOverrides.salaryMultiplier) (int 1))%num)
               (activeHires hp m (nullish (ov ≫= ScenarioOverrides.hiringDelayMonths) 0))
               (int 0))) as Hs.
  { apply salaryCosts_finite; [|done|done].
    unfold activeHires. rewrite Forall_forall in Hhp |- *.
    intros item [_ Hin]%list_elem_of_filter. by apply Hhp. }
  repeat split; auto 10 with finite.
Qed.

Lemma calculateRunway_finite (cash burn : number) :
  finite cash → finite burn → finiteOpt (calculateRunway cash burn).
Proof.
  intros Hc Hb. unfold calculateRunway.
  destruct (num_le cash (int 0)); [done|].
  destruct (num_le burn (int 0)) eqn:Hle; [done|].
  simpl. apply finite_div; [done|done|]. by apply num_le_0_false_ne.
Qed.

Lemma projectMonth_finite (a eff : AssumptionInput.t)
    (hp : list HiringPlanItemInput.t) (ov : option ScenarioOverrides.t)
    (m : Z) (st : LoopState) :
  finiteAssumptions eff → finiteOverrides ov →
  Forall (λ item, finite (HiringPlanItemInput.monthlySalaryPerHead item)) hp →
  finite (currentCash st) → finite (currentActiveCustomers st) →
  finiteProjection (projectMonth a eff hp ov m st).
Proof.
  intros Heff Hov Hhp Hcash Hact.
  destruct (calculateActiveCustomers_finite (currentActiveCustomers st) eff m ov
              Hact Heff Hov) as (Hn & Hch & Hac).
  destruct (calculateRevenue_finite _ eff Hac Heff) as (Hmrr & Hrev).
  destruct (calculateCosts_finite _ m hp eff ov Hrev Heff Hov Hhp)
    as (? & ? & ? & ? & ? & Hopex).
  unfold finiteProjection, projectMonth.
  cbn [MonthlyProjection.startingCash MonthlyProjection.endingCash
       MonthlyProjection.netBurn MonthlyProjection.runwayMonths
       MonthlyProjection.newCustomers MonthlyProjection.churnedCustomers
       MonthlyProjection.activeCustomers MonthlyProjection.mrr
       MonthlyProjection.revenue MonthlyProjection.cogs
       MonthlyProjection.grossProfit MonthlyProjection.salaryCosts
       MonthlyProjection.fixedCosts MonthlyProjection.variableCosts
       MonthlyProjection.totalOpex].
  repeat split; try done; auto with finite.
  apply calculateRunway_finite; auto with finite.
Qed.

Lemma projectMonths_finite (a eff : AssumptionInput.t)
    (hp : list HiringPlanItemInput.t) (ov : option ScenarioOverrides.t)
    (n : nat) (m : Z) (st : LoopState) :
  finiteAssumptions eff → finiteOverrides ov →
  Forall (λ item, finite (HiringPlanItemInput.monthlySalaryPerHead item)) hp →
  finite (currentCash st) → finite (currentActiveCustomers st) →
  Forall finiteProjection (projectMonths a eff hp ov n m st).
Proof.
  intros Heff Hov Hhp. revert m st.
  induction n as [|n IH]; intros m st Hcash Hact; cbn [projectMonths]; [done|].
  pose proof (projectMonth_finite a eff hp ov m st Heff Hov Hhp Hcash Hact) as Hp.
  constructor; [exact Hp|].
  apply IH; unfold advance; cbn [currentCash currentActiveCustomers];
    unfold finiteProjection in Hp; tauto.
Qed.



(** An infinite ARPU, by contrast, reaches the records: with no customers
    lost and none gained the month's MRR is [0 * Infinity], that is [NaN]. *)
Lemma calculateRevenue_infinite_arpu :
  let a := AssumptionInput.mk "Base Case" {| ym_year := 2024; ym_month := 1 |} 24
             "PER_SEAT" PosInf (int 0) (int 0) (int 0) (int 500) 12
             (int 80) (int 15000) (dec 1 10) in
  Revenue.mrr (calculateRevenue (int 0) a) = NaN.
Proof. reflexivity. Qed.

(** ** Costs and cash add up *)



Lemma fold_left_add_finite (l : list number) (z : Qc) :
  Forall finite l → fold_left num_add l (Fin z) = Fin (z + qsum l)%Qc.
Proof.
  intros Hl. revert z. induction Hl as [|x l Hx _ IH]; intros z.
  - simpl. f_equal. unfold qsum. simpl. ring.
  - destruct x as [q| | |]; [|done..]. cbn [fold_left num_add]. rewrite IH.
    f_equal. unfold qsum. simpl. ring.
Qed.

Lemma total_finite (f : MonthlyProjection.t → number)
    (ps : list MonthlyProjection.t) :
  Forall (λ p, finite (f p)) ps → total f ps = Fin (qsum (f <$> ps)).
Proof.
  intros Hps. unfold total, int. rewrite fold_left_add_finite.
  - f_equal. rewrite Z2Qc_inj_0. ring.
  - by apply Forall_fmap.
Qed.

Lemma last_cons_cons {A} (x y : A) (l : list A) (d : A) :
  List.last (x :: y :: l) d = List.last (y :: l) d.
Proof. reflexivity. Qed.

Lemma last_default {A} (l : list A) (d d' : A) :
  l ≠ [] → List.last l d = List.last l d'.
Proof.
  induction l as [|x [|y l] IH]; [done|done|]. intros _.
  rewrite !last_cons_cons. by apply IH.
Qed.

(** After [S n] months the last record's ending cash is the starting cash
    less all the net burns. *)
Lemma projectMonths_endingCash (a eff : AssumptionInput.t)
    (hp : list HiringPlanItemInput.t) (ov : option ScenarioOverrides.t)
    (n : nat) (m : Z) (st : LoopState) (c : Qc) (d : MonthlyProjection.t) :
  currentCash st = Fin c →
  Forall finiteProjection (projectMonths a eff hp ov (S n) m st) →
  MonthlyProjection.endingCash
      (List.last (projectMonths a eff hp ov (S n) m st) d)
    = Fin (c - qsum (MonthlyProjection.netBurn
                       <$> projectMonths a eff hp ov (S n) m st))%Qc.
Proof.
  revert m st c. induction n as [|n IH]; intros m st c Hc Hfin.
  - cbn [projectMonths] in *. apply Forall_cons_1 in Hfin as [Hp _].
    destruct Hp as (_ & _ & Hb & _).
    cbn [List.last fmap list_fmap qsum foldr].
    unfold projectMonth in *.
    cbn [MonthlyProjection.endingCash MonthlyProjection.netBurn] in *.
    rewrite Hc. destruct (_ - _)%num as [b| | |]; [|done..].
    cbn [num_sub num_add num_opp qval]. f_equal. ring.
  - remember (S n) as k eqn:Hk. cbn [projectMonths] in *.
    apply Forall_cons_1 in Hfin as [Hp Hrest].
    set (p := projectMonth a eff hp ov m st) in *.
    assert (MonthlyProjection.endingCash p
            = (Fin c - MonthlyProjection.netBurn p)%num) as He
      by (subst p; unfold projectMonth;
          cbn [MonthlyProjection.endingCash MonthlyProjection.netBurn];
          by rewrite Hc).
    destruct Hp as (_ & _ & Hb & _).
    destruct (MonthlyProjection.netBurn p) as [b| | |] eqn:Hbp; [|done..].
    cbn [num_sub num_add num_opp] in He.
    subst k.
    assert (List.last (p :: projectMonths a eff hp ov (S n) (m + 1) (advance p)) d
            = List.last (projectMonths a eff hp ov (S n) (m + 1) (advance p)) d)
      as -> by reflexivity.
    rewrite (IH (m + 1) (advance p) (c + - b)%Qc He Hrest).
    cbn [fmap list_fmap]. unfold qsum at 2. cbn [foldr]. fold (qsum
      (MonthlyProjection.netBurn
         <$> projectMonths a eff hp ov (S n) (m + 1) (advance p))).
    rewrite Hbp. cbn [qval]. f_equal. ring.
Qed.

Lemma generateSummary_ends (ps : list MonthlyProjection.t)
    (a : AssumptionInput.t) (s : ProjectionSummary.t) (d : MonthlyProjection.t) :
  generateSummary ps a = Returns s →
  ProjectionSummary.startingCash s = MonthlyProjection.startingCash (hd d ps) ∧
  ProjectionSummary.endingCash s = MonthlyProjection.endingCash (List.last ps d) ∧
  ProjectionSummary.totalRevenue s = total MonthlyProjection.revenue ps.
Proof.
  destruct ps as [|p ps']; [done|]. unfold generateSummary. intros [= <-].
  cbn [ProjectionSummary.startingCash ProjectionSummary.endingCash
       ProjectionSummary.totalRevenue hd].
  split; [done|]. split.
  - transitivity (MonthlyProjection.endingCash (List.last (p :: ps') p));
      [reflexivity|]. f_equal. by apply last_default.
  - unfold total. by rewrite fold_left_sum_map.
Qed.



(** ** The summary: when the cash runs out *)

Lemma find_first_index {A} (f : A → bool) (l : list A) (x : A) :
  find f l = Some x →
  ∃ i, l !! i = Some x ∧ f x = true ∧
       ∀ j y, (j < i)%nat → l !! j = Some y → f y = false.
Proof.
  induction l as [|a l IH]; [done|]. simpl. destruct (f a) eqn:Ha.
  - intros [= <-]. exists 0%nat. repeat split; [done|]. intros j y Hj. lia.
  - intros Hx. destruct (IH Hx) as (i & Hi & Hfx & Hbefore).
    exists (S i). repeat split; [done..|].
    intros [|j] y Hj; simpl; [by intros [= <-]|].
    apply Hbefore. lia.
Qed.

Lemma find_none_iff {A} (f : A → bool) (l : list A) :
  find f l = None ↔ ∀ x, x ∈ l → f x = false.
Proof.
  induction l as [|a l IH]; simpl.
  - split; [|done]. intros _ x Hx. by apply elem_of_nil in Hx.
  - destruct (f a) eqn:Ha.
    + split; [done|]. intros H. specialize (H a (list_elem_of_here _ _)). congruence.
    + rewrite IH. split.
      * intros H x [->|Hx]%elem_of_cons; auto.
      * intros H x Hx. apply H. by apply list_elem_of_further.
Qed.

Lemma generateSummary_zeroCashMonth (ps : list MonthlyProjection.t)
    (a : AssumptionInput.t) (s : ProjectionSummary.t) :
  generateSummary ps a = Returns s →
  ProjectionSummary.zeroCashMonth s
    = MonthlyProjection.month
        <$> find (λ p, num_le (MonthlyProjection.endingCash p) (int 0)) ps.
Proof.
  destruct ps as [|p ps']; [done|]. unfold generateSummary. by intros [= <-].
Qed.

(** X9: the summary's [zeroCashMonth] is null exactly when no month ends
    with cash at or below 0; otherwise it is the label of the first such
    month: every earlier month ends with cash above 0. *)
Theorem summary_zeroCashMonth_first (input : FinancialModelInput)
    (out : FinancialModelOutput) :
  runScenario input = Returns out →
  (ProjectionSummary.zeroCashMonth (summary out) = None ↔
   ∀ p, p ∈ projections out →
        num_le (MonthlyProjection.endingCash p) (int 0) = false) ∧
  (∀ label, ProjectionSummary.zeroCashMonth (summary out) = Some label →
   ∃ i p, projections out !! i = Some p ∧
          MonthlyProjection.month p = label ∧
          num_le (MonthlyProjection.endingCash p) (int 0) = true ∧
          ∀ j q, (j < i)%nat → projections out !! j = Some q →
                 num_le (MonthlyProjection.endingCash q) (int 0) = false).
Proof.
  intros Hrun.
  rewrite (generateSummary_zeroCashMonth _ _ _ (runScenario_summary _ _ Hrun)).
  split.
  - rewrite fmap_None. apply find_none_iff.
  - intros label (p & Hfind & ->)%fmap_Some.
    destruct (find_first_index _ _ _ Hfind) as (i & Hi & Hp & Hbefore).
    exists i, p. eauto.
Qed.

(** The guide's company with 50000 of cash: it runs out in the second
    month, "2024-02". *)
Lemma summary_zeroCashMonth_first_witness :
  let c := CompanyInput.mk "Test Startup" "SEED" "SAAS" "US" "USD"
             (int 50000) (int 10000) 5 in
  ∃ out,
    runScenario (Build_FinancialModelInput c Guide.assumptions Guide.hiringPlan None)
      = Returns out ∧
    ∃ i p, projections out !! i = Some p ∧
           ProjectionSummary.zeroCashMonth (summary out)
             = Some (MonthlyProjection.month p).
Proof.
  intros c.
  destruct (runScenario_returns
              (Build_FinancialModelInput c Guide.assumptions Guide.hiringPlan None))
    as (out & Hout & Hp); [done|].
  exists out. split; [exact Hout|].
  destruct (ProjectionSummary.zeroCashMonth (summary out)) as [label|] eqn:Hz.
  - destruct (proj2 (summary_zeroCashMonth_first _ out Hout) label Hz)
      as (i & p & Hi & <- & _).
    exists i, p. split; [exact Hi | reflexivity].
  - exfalso.
    pose proof (proj1 (proj1 (summary_zeroCashMonth_first _ out Hout)) Hz) as Hall.
    assert (∃ p, projections out !! 1%nat = Some p ∧
                 num_le (MonthlyProjection.endingCash p) (int 0) = true)
      as (p & Hlp & Hle).
    { rewrite Hp. eexists. split; [reflexivity|]. vm_compute. reflexivity. }
    rewrite (Hall p) in Hle; [discriminate|].
    by apply list_elem_of_lookup_2 in Hlp.
Defined.

(** ** The summary: minimum runway *)

Lemma num_le_trans (x y z : number) :
  num_le x y = true → num_le y z = true → num_le x z = true.
Proof.
  destruct x as [a| | |], y as [b| | |], z as [c| | |]; simpl; try done.
  rewrite !bool_decide_eq_true. apply Qcle_trans.
Qed.

Lemma num_le_refl_finite (x : number) : finite x → num_le x x = true.
Proof. destruct x; [|done..]. intros _. simpl. by apply bool_decide_eq_true. Qed.

(** [Math.min(...values)] over finite values, computed from [Infinity]:
    the result is the accumulator or a value, and below all of them. *)
Lemma fold_left_Math_min_spec (l : list number) (acc : number) :
  Forall finite l → acc = PosInf ∨ finite acc →
  let r := fold_left Math_min l acc in
  (r = acc ∨ r ∈ l) ∧ num_le r acc = true ∧ ∀ x, x ∈ l → num_le r x = true.
Proof.
  intros Hl. revert acc. induction Hl as [|x l Hx _ IH]; intros acc Hacc r.
  - subst r. simpl. split; [by left|]. split.
    + destruct Hacc as [->|Hf]; [done|by apply num_le_refl_finite].
    + intros y Hy. by apply elem_of_nil in Hy.
  - subst r. cbn [fold_left].
    assert ((Math_min acc x = acc ∨ Math_min acc x = x) ∧
            finite (Math_min acc x) ∧
            num_le (Math_min acc x) acc = true ∧
            num_le (Math_min acc x) x = true) as (Hsel & Hfin & Hle1 & Hle2).
    { destruct x as [q| | |]; [|done..].
      destruct Hacc as [->|Hf].
      - simpl. repeat split; [by right|]. by apply bool_decide_eq_true.
      - destruct acc as [c| | |]; [|done..]. unfold Math_min. simpl.
        case_bool_decide as Hlt; simpl.
        + repeat split; [by right| |]; apply bool_decide_eq_true;
            [by apply Qclt_le_weak|done].
        + repeat split; [by left| |]; apply bool_decide_eq_true;
            [done|by apply Qcnot_lt_le]. }
    destruct (IH (Math_min acc x) (or_intror Hfin)) as (Hr & Hra & Hall).
    split; [|split].
    + destruct Hr as [->|Hr].
      * destruct Hsel as [->| ->]; [by left|right; apply list_elem_of_here].
      * right. by apply list_elem_of_further.
    + by eapply num_le_trans.
    + intros y [->|Hy]%elem_of_cons; [by eapply num_le_trans|by apply Hall].
Qed.

(** A runway that is not null is never below 0. *)
Lemma calculateRunway_not_negative (cash burn v : number) :
  finite cash → finite burn → calculateRunway cash burn = Some v →
  num_le (int 0) v = true.
Proof.
  intros Hc Hb. unfold calculateRunway.
  destruct (num_le cash (int 0)) eqn:Hle1; [by intros [= <-]|].
  destruct (num_le burn (int 0)) eqn:Hle2; [done|]. intros [= <-].
  destruct cash as [c| | |], burn as [b| | |]; try done.
  unfold int in *. simpl in Hle1, Hle2. rewrite Z2Qc_inj_0 in *.
  apply bool_decide_eq_false in Hle1, Hle2.
  apply Qcnot_le_lt in Hle1, Hle2.
  unfold num_div. destruct (decide (b = 0%Qc)) as [->|_];
    [by destruct (Qclt_not_eq _ _ Hle2)|].
  simpl. apply bool_decide_eq_true, Qclt_le_weak.
  unfold Qcdiv. apply Qcmult_pos_pos; [done|by apply Qcinv_pos].
Qed.

Lemma projection_runwayMonths (input : FinancialModelInput)
    (out : FinancialModelOutput) (p : MonthlyProjection.t) :
  runScenario input = Returns out → p ∈ projections out →
  MonthlyProjection.runwayMonths p
    = calculateRunway (MonthlyProjection.endingCash p) (MonthlyProjection.netBurn p).
Proof.
  intros Hrun Hp. rewrite (runScenario_projections _ _ Hrun) in Hp.
  by apply projectMonths_elem_of in Hp as (k & st & _ & ->).
Qed.

Lemma generateSummary_minRunway (ps : list MonthlyProjection.t)
    (a : AssumptionInput.t) (s : ProjectionSummary.t) :
  generateSummary ps a = Returns s →
  ProjectionSummary.minRunway s
    = let validRunways := omap id (MonthlyProjection.runwayMonths <$> ps) in
      if bool_decide (0 < length validRunways)%nat
      then Some (fold_left Math_min validRunways PosInf)
      else None.
Proof.
  destruct ps as [|p ps']; [done|]. unfold generateSummary. by intros [= <-].
Qed.

Lemma elem_of_validRunways (ps : list MonthlyProjection.t) (v : number) :
  v ∈ omap id (MonthlyProjection.runwayMonths <$> ps) ↔
  ∃ p, p ∈ ps ∧ MonthlyProjection.runwayMonths p = Some v.
Proof.
  rewrite list_elem_of_omap. split.
  - intros (o & (p & -> & Hp)%list_elem_of_fmap & Ho). eauto.
  - intros (p & Hp & Hv). exists (Some v). split; [|done].
    apply list_elem_of_fmap. eauto.
Qed.



(** ** The summary: peak and average burn *)

(** The comparator that [generateSummary] sorts the burn months with. *)
Local Abbreviation byBurnDesc :=
  (λ a b : MonthlyProjection.t,
     (MonthlyProjection.netBurn b - MonthlyProjection.netBurn a)%num).

Lemma sort_insert_not_nil {A} (compare : A → A → number) (a : A) (l : list A) :
  sort_insert compare a l ≠ [].
Proof.
  destruct l as [|b l]; cbn [sort_insert]; [done|].
  by destruct (num_gt (compare a b) (int 0)).
Qed.

Lemma sort_elem_of {A} (compare : A → A → number) (l : list A) (x : A) :
  x ∈ sort compare l ↔ x ∈ l.
Proof.
  assert (∀ a s, x ∈ sort_insert compare a s ↔ x = a ∨ x ∈ s) as Hins.
  { intros a s. induction s as [|b s IH]; cbn [sort_insert].
    - rewrite list_elem_of_singleton, elem_of_nil. tauto.
    - destruct (num_gt (compare a b) (int 0)).
      + rewrite !elem_of_cons, IH. tauto.
      + by rewrite !elem_of_cons. }
  induction l as [|a l IH]; [done|]. unfold sort in *. simpl.
  by rewrite Hins, IH, elem_of_cons.
Qed.

Lemma sort_length {A} (compare : A → A → number) (l : list A) :
  length (sort compare l) = length l.
Proof.
  assert (∀ a s, length (sort_insert compare a s) = S (length s)) as Hins.
  { intros a s. induction s as [|b s IH]; cbn [sort_insert]; [done|].
    destruct (num_gt (compare a b) (int 0)); simpl; by rewrite ?IH. }
  induction l as [|a l IH]; [done|]. unfold sort in *. simpl. by rewrite Hins, IH.
Qed.

Lemma sort_qsum {A} (compare : A → A → number) (f : A → number) (l : list A) :
  qsum (f <$> sort compare l) = qsum (f <$> l).
Proof.
  assert (∀ a s, qsum (f <$> sort_insert compare a s)
                 = (qval (f a) + qsum (f <$> s))%Qc) as Hins.
  { intros a s. induction s as [|b s IH]; cbn [sort_insert]; [done|].
    destruct (num_gt (compare a b) (int 0)); [|done].
    unfold qsum in *. cbn [fmap list_fmap foldr]. rewrite IH. ring. }
  induction l as [|a l IH]; [done|]. unfold sort in *. simpl. rewrite Hins, IH.
  reflexivity.
Qed.

Lemma num_gt_sub_0 (a b : Qc) :
  num_gt (Fin b - Fin a)%num (int 0) = true ↔ (a < b)%Qc.
Proof.
  unfold num_gt, int. simpl. rewrite Z2Qc_inj_0, bool_decide_eq_true.
  split; intros H.
  - apply (Qcplus_lt_mono_r _ _ (- a)%Qc). by rewrite Qcplus_opp_r.
  - apply (Qcplus_lt_mono_r _ _ (- a)%Qc) in H. by rewrite Qcplus_opp_r in H.
Qed.

(** The head of the sorted burn months is one of them and has the largest
    net burn. *)
Lemma sort_byBurnDesc_hd (l : list MonthlyProjection.t) (d : MonthlyProjection.t) :
  Forall (λ p, finite (MonthlyProjection.netBurn p)) l → l ≠ [] →
  hd d (sort byBurnDesc l) ∈ l ∧
  ∀ x, x ∈ l →
       num_le (MonthlyProjection.netBurn x)
              (MonthlyProjection.netBurn (hd d (sort byBurnDesc l))) = true.
Proof.
  intros Hl. induction Hl as [|a l Ha Hl IH]; [done|]. intros _.
  unfold sort in *. cbn [foldr].
  destruct l as [|a' l'].
  { simpl. split; [apply list_elem_of_here|].
    intros x ->%list_elem_of_singleton. by apply num_le_refl_finite. }
  destruct (IH ltac:(done)) as [Hin Hmax].
  destruct (foldr (sort_insert byBurnDesc) [] (a' :: l')) as [|b s] eqn:Hs.
  { simpl in Hs. by apply sort_insert_not_nil in Hs. }
  cbn [hd] in Hin, Hmax. cbn [sort_insert].
  assert (finite (MonthlyProjection.netBurn b)) as Hb
    by (rewrite Forall_forall in Hl; by apply Hl).
  destruct (MonthlyProjection.netBurn a) as [qa| | |] eqn:Hqa; [|done..].
  destruct (MonthlyProjection.netBurn b) as [qb| | |] eqn:Hqb; [|done..].
  destruct (num_gt (Fin qb - Fin qa)%num (int 0)) eqn:Hgt; cbn [hd].
  - apply num_gt_sub_0 in Hgt. split; [by apply list_elem_of_further|].
    rewrite Hqb. intros x [->|Hx]%elem_of_cons.
    + rewrite Hqa. simpl. by apply bool_decide_eq_true, Qclt_le_weak.
    + by apply Hmax.
  - assert (qb ≤ qa)%Qc as Hle.
    { apply Qcnot_lt_le. intros Hlt. apply num_gt_sub_0 in Hlt. congruence. }
    split; [apply list_elem_of_here|]. rewrite Hqa.
    intros x [->|Hx]%elem_of_cons.
    + rewrite Hqa. simpl. by apply bool_decide_eq_true.
    + eapply num_le_trans; [by apply Hmax|]. simpl.
      by apply bool_decide_eq_true.
Qed.

Lemma generateSummary_burn (ps : list MonthlyProjection.t)
    (a : AssumptionInput.t) (s : ProjectionSummary.t) (d : MonthlyProjection.t) :
  generateSummary ps a = Returns s →
  let peak := hd (List.last ps d) (sort byBurnDesc (burnMonths ps)) in
  ProjectionSummary.peakBurn s = MonthlyProjection.netBurn peak ∧
  ProjectionSummary.peakBurnMonth s = MonthlyProjection.month peak ∧
  ProjectionSummary.avgMonthlyBurn s
    = (if bool_decide (0 < length (sort byBurnDesc (burnMonths ps)))%nat
       then (fold_left (λ sum p, (sum + MonthlyProjection.netBurn p)%num)
                       (sort byBurnDesc (burnMonths ps)) (int 0)
             / int (Z.of_nat (length (sort byBurnDesc (burnMonths ps)))))%num
       else int 0) ∧
  ProjectionSummary.totalCashBurned s
    = fold_left
        (λ sum p, (sum + Math_max (int 0) (MonthlyProjection.netBurn p))%num)
        ps (int 0).
Proof.
  destruct ps as [|p ps']; [done|]. unfold generateSummary. intros [= <-].
  cbv zeta.
  cbn [ProjectionSummary.peakBurn ProjectionSummary.peakBurnMonth
       ProjectionSummary.avgMonthlyBurn ProjectionSummary.totalCashBurned].
  assert (List.last (p :: ps') p = List.last (p :: ps') d) as Hlast
    by by apply last_default.
  rewrite <- Hlast. done.
Qed.

Lemma elem_of_burnMonths (ps : list MonthlyProjection.t) (p : MonthlyProjection.t) :
  p ∈ burnMonths ps ↔
  p ∈ ps ∧ num_gt (MonthlyProjection.netBurn p) (int 0) = true.
Proof. unfold burnMonths. rewrite !list_elem_of_In. apply filter_In. Qed.



Lemma qsum_cons (x : number) (l : list number) :
  qsum (x :: l) = (qval x + qsum l)%Qc.
Proof. reflexivity. Qed.

Lemma Math_max_0_cases (x : number) :
  finite x →
  (num_gt x (int 0) = true ∧ Math_max (int 0) x = x) ∨
  (num_gt x (int 0) = false ∧ Math_max (int 0) x = int 0).
Proof.
  destruct x as [b| | |]; [|done..]. intros _.
  unfold Math_max, num_gt. destruct (num_lt (int 0) (Fin b)); auto.
Qed.

Lemma qsum_burn_max0 (ps : list MonthlyProjection.t) :
  Forall (λ p, finite (MonthlyProjection.netBurn p)) ps →
  Forall (λ p, finite (Math_max (int 0) (MonthlyProjection.netBurn p))) ps ∧
  qsum ((λ p, Math_max (int 0) (MonthlyProjection.netBurn p)) <$> ps)
    = qsum (MonthlyProjection.netBurn <$> burnMonths ps).
Proof.
  induction 1 as [|p ps Hp _ [IH1 IH2]]; [done|].
  cbn [fmap list_fmap burnMonths List.filter]. fold (burnMonths ps).
  destruct (Math_max_0_cases _ Hp) as [[Hgt Hmax]|[Hgt Hmax]]; rewrite Hgt, Hmax.
  - split; [constructor; [by rewrite Hmax|done]|].
    cbn [fmap list_fmap]. by rewrite !qsum_cons, IH2.
  - split; [constructor; [by rewrite Hmax|done]|].
    rewrite qsum_cons, IH2. unfold int. cbn [qval].
    rewrite Z2Qc_inj_0. ring.
Qed.



(** ** The sanity checker: what makes it fail *)

Lemma passed_existsb (f : SanityWarning → bool) (ws : list SanityWarning) :
  bool_decide (length (List.filter f ws) = 0%nat) = negb (existsb f ws).
Proof.
  induction ws as [|w ws IH]; [done|]. simpl. by destruct (f w).
Qed.

Lemma num_gt_0_num_eq (x : number) :
  num_gt x (int 0) = true → num_eq x (int 0) = false.
Proof.
  intros Hgt. destruct x as [q| | |]; try done.
  unfold num_eq. apply bool_decide_eq_false. intros Heq.
  by apply (num_gt_0_ne _ Hgt).
Qed.

(** Where the checker computes the LTV:CAC ratio, no guard against a zero
    divisor is hit: the ratio is [arpu / churnRate / cac]. *)
Lemma ltvToCac_guarded (arpu churnRate cac : number) :
  num_gt cac (int 0) = true → num_gt churnRate (int 0) = true →
  calculateLTVtoCAC (calculateLTV arpu churnRate) cac = (arpu / churnRate / cac)%num.
Proof.
  intros Hcac Hchurn. unfold calculateLTVtoCAC, calculateLTV.
  by rewrite (num_gt_0_num_eq _ Hcac), (num_gt_0_num_eq _ Hchurn).
Qed.

Ltac split_checks :=
  repeat match goal with
    | |- context [if ?b then _ else _] => destruct b eqn:?
    end;
  rewrite ?existsb_app; cbn [existsb]; rewrite ?orb_false_r; try reflexivity.

Section HighWarnings.
Variable company : CompanyInput.t.
Variable a : AssumptionInput.t.
Variable ws : list SanityWarning.

Lemma checkChurnRate_high :
  existsb isHigh (checkChurnRate a ws)
  = existsb isHigh ws
    || (num_lt (AssumptionInput.churnRate a) (int 0)
        || num_gt (AssumptionInput.churnRate a) (int 1)).
Proof. unfold checkChurnRate, pushIf. split_checks. Qed.

Lemma checkArpu_high :
  existsb isHigh (checkArpu a ws)
  = existsb isHigh ws || num_le (AssumptionInput.arpu a) (int 0).
Proof. unfold checkArpu, pushIf. split_checks. Qed.

Lemma checkCacPayback_high :
  existsb isHigh (checkCacPayback a ws) = existsb isHigh ws.
Proof. unfold checkCacPayback, pushIf. split_checks. Qed.

Lemma checkLtvToCac_high :
  existsb isHigh (checkLtvToCac a ws)
  = existsb isHigh ws
    || (num_gt (AssumptionInput.cac a) (int 0)
        && num_gt (AssumptionInput.churnRate a) (int 0)
        && num_lt (AssumptionInput.arpu a / AssumptionInput.churnRate a
                   / AssumptionInput.cac a)%num (int 3)).
Proof.
  unfold checkLtvToCac, pushIf.
  destruct (num_gt (AssumptionInput.cac a) (int 0)) eqn:Hcac;
    [|by rewrite orb_false_r].
  destruct (num_gt (AssumptionInput.churnRate a) (int 0)) eqn:Hchurn;
    [|by rewrite orb_false_r].
  cbn [andb]. rewrite (ltvToCac_guarded _ _ _ Hcac Hchurn). split_checks.
Qed.

Lemma checkPaybackPeriod_high :
  existsb isHigh (checkPaybackPeriod a ws) = existsb isHigh ws.
Proof. unfold checkPaybackPeriod, pushIf. split_checks. Qed.

Lemma checkGrossMargin_high :
  existsb isHigh (checkGrossMargin a ws)
  = existsb isHigh ws
    || (num_lt (AssumptionInput.grossMarginPercent a) (int 0)
        || num_gt (AssumptionInput.grossMarginPercent a) (int 100)).
Proof. unfold checkGrossMargin, pushIf. split_checks. Qed.

Lemma checkStartingCash_high :
  existsb isHigh (checkStartingCash company a ws)
  = existsb isHigh ws
    || num_lt (CompanyInput.startingCash company / estimatedMonthlyBurn a)%num
              (int 6).
Proof. unfold checkStartingCash, pushIf, estimatedMonthlyBurn. split_checks. Qed.

Lemma checkGrowthRate_high :
  existsb isHigh (checkGrowthRate a ws)
  = existsb isHigh ws
    || num_lt (AssumptionInput.expectedNewCustomersPerMonth a) (int 0).
Proof. unfold checkGrowthRate, pushIf. split_checks. Qed.

Lemma checkExpansionRevenue_high :
  existsb isHigh (checkExpansionRevenue a ws) = existsb isHigh ws.
Proof. unfold checkExpansionRevenue, pushIf. split_checks. Qed.
End HighWarnings.

(** X13: [runSanityChecks] passes exactly when none of its six "high"
    conditions holds: churn rate outside [0, 1]; ARPU at most 0; an LTV:CAC
    ratio [arpu / churnRate / cac] below 3 (looked at only when CAC and
    churn rate are above 0); gross margin outside [0, 100]; an estimated
    runway [startingCash / (fixedCosts + newCustomers * cac)] below 6
    months; a negative number of new customers.  The conditions are
    independent: none hides another. *)
Theorem runSanityChecks_passed_conditions (company : CompanyInput.t)
    (a : AssumptionInput.t) :
  passed (runSanityChecks company a)
  = negb
      ((num_lt (AssumptionInput.churnRate a) (int 0)
        || num_gt (AssumptionInput.churnRate a) (int 1))
       || num_le (AssumptionInput.arpu a) (int 0)
       || (num_gt (AssumptionInput.cac a) (int 0)
           && num_gt (AssumptionInput.churnRate a) (int 0)
           && num_lt (AssumptionInput.arpu a / AssumptionInput.churnRate a
                      / AssumptionInput.cac a)%num (int 3))
       || (num_lt (AssumptionInput.grossMarginPercent a) (int 0)
           || num_gt (AssumptionInput.grossMarginPercent a) (int 100))
       || num_lt (CompanyInput.startingCash company / estimatedMonthlyBurn a)%num
                 (int 6)
       || num_lt (AssumptionInput.expectedNewCustomersPerMonth a) (int 0)).
Proof.
  unfold runSanityChecks. cbn [passed].
  change (λ w, bool_decide (severity w = high)) with isHigh.
  rewrite passed_existsb. f_equal. unfold collectWarnings.
  rewrite checkExpansionRevenue_high, checkGrowthRate_high, checkStartingCash_high,
    checkGrossMargin_high, checkPaybackPeriod_high, checkLtvToCac_high,
    checkCacPayback_high, checkArpu_high, checkChurnRate_high.
  reflexivity.
Qed.

(** ** The sanity checker: a zero estimated burn *)

Section OtherFields.
Variable P : SanityWarning → bool.
Hypothesis P_startingCash : ∀ w, field w ≠ "startingCash"%string → P w = false.
Variable a : AssumptionInput.t.
Variable ws : list SanityWarning.

Ltac other_field :=
  repeat match goal with
    | |- context [if ?b then _ else _] => destruct b eqn:?
    end;
  rewrite ?existsb_app; cbn [existsb];
  rewrite ?P_startingCash by (cbn [field]; discriminate);
  rewrite ?orb_false_r; reflexivity.

Lemma checkChurnRate_other : existsb P (checkChurnRate a ws) = existsb P ws.
Proof. unfold checkChurnRate, pushIf. other_field. Qed.

Lemma checkArpu_other : existsb P (checkArpu a ws) = existsb P ws.
Proof. unfold checkArpu, pushIf. other_field. Qed.

Lemma checkCacPayback_other : existsb P (checkCacPayback a ws) = existsb P ws.
Proof. unfold checkCacPayback, pushIf. other_field. Qed.

Lemma checkLtvToCac_other : existsb P (checkLtvToCac a ws) = existsb P ws.
Proof. unfold checkLtvToCac, pushIf. other_field. Qed.

Lemma checkPaybackPeriod_other : existsb P (checkPaybackPeriod a ws) = existsb P ws.
Proof. unfold checkPaybackPeriod, pushIf. other_field. Qed.

Lemma checkGrossMargin_other : existsb P (checkGrossMargin a ws) = existsb P ws.
Proof. unfold checkGrossMargin, pushIf. other_field. Qed.

Lemma checkGrowthRate_other : existsb P (checkGrowthRate a ws) = existsb P ws.
Proof. unfold checkGrowthRate, pushIf. other_field. Qed.

Lemma checkExpansionRevenue_other :
  existsb P (checkExpansionRevenue a ws) = existsb P ws.
Proof. unfold checkExpansionRevenue, pushIf. other_field. Qed.
End OtherFields.

(** Dividing by an estimated burn of 0: a starting cash of at least 0
    gives [Infinity] or [NaN], which no comparison finds below 6 or 12. *)
Lemma checkStartingCash_zero_burn (company : CompanyInput.t)
    (a : AssumptionInput.t) (ws : list SanityWarning) :
  estimatedMonthlyBurn a = int 0 →
  num_le (int 0) (CompanyInput.startingCash company) = true →
  checkStartingCash company a ws = ws.
Proof.
  unfold checkStartingCash, estimatedMonthlyBurn, pushIf. intros -> Hcash.
  destruct (CompanyInput.startingCash company) as [c| | |]; try done.
  unfold int in Hcash. simpl in Hcash. rewrite Z2Qc_inj_0 in Hcash.
  apply bool_decide_eq_true in Hcash.
  unfold num_div, int. rewrite Z2Qc_inj_0.
  destruct (decide (0%Qc = 0%Qc)) as [_|Hne]; [|done].
  destruct (c ?= 0)%Qc eqn:Hcmp; try done.
  exfalso. apply Qclt_alt in Hcmp. by apply (Qcle_not_lt _ _ Hcash).
Qed.

(** A negative starting cash over a burn of 0 gives [-Infinity]: the
    runway warning of severity "high". *)
Lemma checkStartingCash_zero_burn_negative (company : CompanyInput.t)
    (a : AssumptionInput.t) (ws : list SanityWarning) :
  estimatedMonthlyBurn a = int 0 →
  num_lt (CompanyInput.startingCash company) (int 0) = true →
  ∃ w, checkStartingCash company a ws = ws ++ [w] ∧
       field w = "startingCash"%string ∧ severity w = high.
Proof.
  unfold checkStartingCash, estimatedMonthlyBurn, pushIf. intros -> Hcash.
  assert ((CompanyInput.startingCash company / int 0)%num = NegInf) as ->.
  { destruct (CompanyInput.startingCash company) as [c| | |]; try done.
    unfold int in Hcash. simpl in Hcash. rewrite Z2Qc_inj_0 in Hcash.
    apply bool_decide_eq_true in Hcash.
    unfold num_div, int. rewrite Z2Qc_inj_0.
    destruct (decide (0%Qc = 0%Qc)) as [_|Hne]; [|done].
    assert ((c ?= 0)%Qc = Lt) as -> by (by apply Qclt_alt). done. }
  simpl. eauto.
Qed.



(** ** The numeric utilities *)

Lemma Math_max_not_NaN (x y : number) :
  x ≠ NaN → y ≠ NaN → Math_max x y = if num_lt x y then y else x.
Proof. by destruct x, y. Qed.

Lemma Math_min_not_NaN (x y : number) :
  x ≠ NaN → y ≠ NaN → Math_min x y = if num_lt y x then y else x.
Proof. by destruct x, y. Qed.

Lemma num_le_not_NaN (x y : number) : num_le x y = true → x ≠ NaN ∧ y ≠ NaN.
Proof. by destruct x, y. Qed.

Lemma num_lt_not_NaN (x y : number) : num_lt x y = true → x ≠ NaN ∧ y ≠ NaN.
Proof. by destruct x, y. Qed.

(** Away from [NaN], [<] is the negation of the converse [<=]. *)
Lemma num_lt_negb_le (x y : number) :
  x ≠ NaN → y ≠ NaN → num_lt x y = negb (num_le y x).
Proof.
  destruct x as [a| | |], y as [b| | |]; try done. intros _ _. simpl.
  case_bool_decide as Hlt; case_bool_decide as Hle; simpl; try done.
  - by destruct (Qclt_not_le _ _ Hlt).
  - by destruct Hle; apply Qcnot_lt_le.
Qed.

Lemma num_le_refl (x : number) : x ≠ NaN → num_le x x = true.
Proof. destruct x; try done. intros _. simpl. by apply bool_decide_eq_true. Qed.

Lemma num_lt_le_trans (x y z : number) :
  num_lt x y = true → num_le y z = true → num_lt x z = true.
Proof.
  destruct x as [a| | |], y as [b| | |], z as [c| | |]; simpl; try done.
  rewrite !bool_decide_eq_true. apply Qclt_le_trans.
Qed.

(** X15: [clamp(value, min, max)] with [min <= max] and a value that is not
    [NaN] returns a number within [min, max], and returns the value itself
    when it already lies there; with [min > max] it returns [max]. *)
Theorem clamp_within_bounds (value lo hi : number) :
  value ≠ NaN →
  (num_le lo hi = true →
   num_le lo (clamp value lo hi) = true ∧ num_le (clamp value lo hi) hi = true ∧
   (num_le lo value = true → num_le value hi = true → clamp value lo hi = value)) ∧
  (num_lt hi lo = true → clamp value lo hi = hi).
Proof.
  intros Hv. unfold clamp. split.
  - intros Hlh. destruct (num_le_not_NaN _ _ Hlh) as [Hl Hh].
    rewrite (Math_max_not_NaN _ _ Hv Hl), (num_lt_negb_le _ _ Hv Hl).
    destruct (num_le lo value) eqn:Hlv; cbn [negb].
    + rewrite (Math_min_not_NaN _ _ Hv Hh), (num_lt_negb_le _ _ Hh Hv).
      destruct (num_le value hi) eqn:Hvh; cbn [negb]; [done|].
      repeat split; [done|by apply num_le_refl|done].
    + rewrite (Math_min_not_NaN _ _ Hl Hh), (num_lt_negb_le _ _ Hh Hl), Hlh.
      cbn [negb]. repeat split; [by apply num_le_refl|done|done].
  - intros Hhl. destruct (num_lt_not_NaN _ _ Hhl) as [Hh Hl].
    rewrite (Math_max_not_NaN _ _ Hv Hl), (num_lt_negb_le _ _ Hv Hl).
    destruct (num_le lo value) eqn:Hlv; cbn [negb].
    + rewrite (Math_min_not_NaN _ _ Hv Hh).
      by rewrite (num_lt_le_trans _ _ _ Hhl Hlv).
    + by rewrite (Math_min_not_NaN _ _ Hl Hh), Hhl.
Qed.

Lemma clamp_within_bounds_witness :
  clamp (dec 3 2) (int 0) (int 1) = int 1 ∧
  clamp (dec 1 2) (int 0) (int 1) = dec 1 2.
Proof.
  destruct (clamp_within_bounds (dec 1 2) (int 0) (int 1) ltac:(done)) as [Hin _].
  destruct (Hin eq_refl) as (_ & _ & Hid).
  split; [number_compute | exact (Hid eq_refl eq_refl)].
Defined.





(** ** Month arithmetic *)

Lemma getMonthDifference_ordinal (a b : YearMonth) :
  getMonthDifference a b = monthOrdinal (parseMonth b) - monthOrdinal (parseMonth a).
Proof. unfold getMonthDifference, monthOrdinal. lia. Qed.

Lemma monthOrdinal_parseMonth (a : YearMonth) :
  100 ≤ ym_year a →
  monthOrdinal (parseMonth a) = 12 * ym_year a + (ym_month a - 1).
Proof.
  intros Ha. unfold monthOrdinal, parseMonth, newDate.
  cbn [getFullYear getMonth].
  rewrite bool_decide_eq_false_2 by lia.
  pose proof (Z.div_mod (ym_month a - 1) 12 ltac:(lia)). lia.
Qed.

Lemma addMonthsDate_0 (a : YearMonth) : addMonthsDate a 0 = parseMonth a.
Proof.
  unfold addMonthsDate, parseMonth, setMonth, newDate.
  cbn [getFullYear getMonth].
  rewrite Z.add_0_r, Z.mod_mod by lia.
  rewrite (Z.div_small ((ym_month a - 1) `mod` 12) 12)
    by (apply Z.mod_pos_bound; lia).
  by rewrite Z.add_0_r.
Qed.

(** The numbers read off the label that [formatMonth] writes parse back
    to the date. *)
Lemma parseMonth_labelOf (d : Date) :
  100 ≤ getFullYear d → 0 ≤ getMonth d < 12 → parseMonth (labelOf d) = d.
Proof.
  intros Hy Hm. unfold parseMonth, labelOf, newDate. cbn [ym_year ym_month].
  rewrite bool_decide_eq_false_2 by lia.
  replace (getMonth d + 1 - 1) with (getMonth d) by lia.
  rewrite Z.div_small, Z.mod_small, Z.add_0_r by lia.
  by destruct d.
Qed.



(** Across the two-digit years the distance is off by 1900 years: from
    "0099-12" to "0100-01" it is not 1. *)
Lemma getMonthDifference_two_digit_year :
  getMonthDifference {| ym_year := 99; ym_month := 12 |}
                     {| ym_year := 100; ym_month := 1 |} = -22799.
Proof. reflexivity. Qed.

(** ** The scenario overlay *)

Lemma clamp01_cases (x : number) :
  (x = NaN ∧ Math_max (int 0) (Math_min (int 1) x) = NaN) ∨
  (num_le (int 0) (Math_max (int 0) (Math_min (int 1) x)) = true ∧
   num_le (Math_max (int 0) (Math_min (int 1) x)) (int 1) = true).
Proof.
  destruct x as [q| | |]; [|by right|by right|by left]. right.
  unfold int. rewrite Z2Qc_inj_0, Z2Qc_inj_1.
  unfold Math_min. cbn [num_lt]. case_bool_decide as H1.
  - unfold Math_max. cbn [num_lt]. case_bool_decide as H0; cbn [num_le].
    + split; apply bool_decide_eq_true; by apply Qclt_le_weak.
    + split; by apply bool_decide_eq_true.
  - unfold Math_max. cbn [num_lt]. case_bool_decide as H0; cbn [num_le].
    + split; by apply bool_decide_eq_true.
    + split; by apply bool_decide_eq_true.
Qed.

